(** * MemoryVectorStore: a shallow embedding of [src/memory-vector-store.ts]

    The store is a JavaScript [Map] from document ids to documents, each
    carrying an embedding; searches rank the resident documents by cosine
    similarity.  JavaScript numbers are read as real numbers (exact
    arithmetic); the embedding provider is an external function whose
    answer may depend on the calls made so far. *)

From Stdlib Require Import List String ZArith Reals Lra Lia Bool.
From Stdlib Require Import Sorting.Sorted Sorting.Permutation.
Import ListNotations.

Set Warnings "-register-all".

Open Scope string_scope.
Open Scope R_scope.

(** ** Errors and results *)

(** The source throws plain [Error] objects; the constructors below are the
    five [throw] sites, with the data that appears in their messages. *)
Inductive Error : Type :=
| ApiKeyRequired
    (* 'OpenAI API key is required. ...' *)
| EmbeddingGenerationFailed (message : string)
    (* `Failed to generate embedding: ${message}` *)
| VectorsLengthMismatch
    (* 'Vectors must have the same length' *)
| EmbeddingDimensionMismatch (expected : Z) (got : nat)
    (* `Embedding dimension mismatch: expected ${..}, got ${..}` *)
| MissingEmbeddingForImport (id : string).
    (* `Document ${doc.id} must have an embedding for import` *)

(** The two length failures are what the specification calls
    [DimensionMismatchError]. *)
Definition isDimensionMismatchError (e : Error) : bool :=
  match e with
  | VectorsLengthMismatch | EmbeddingDimensionMismatch _ _ => true
  | _ => false
  end.

Inductive Result (A : Type) : Type :=
| Ok (a : A)
| Err (e : Error).
Arguments Ok {A} a.
Arguments Err {A} e.

(** ** JavaScript [Map] with string keys

    A [Map] iterates in insertion order; [set] on a present key keeps the
    key's position. *)
Module JsMap.
Section WithValue.
Context {V : Type}.

Definition t := list (string * V).

Definition empty : t := [].

Fixpoint get (k : string) (m : t) : option V :=
  match m with
  | [] => None
  | (k', v) :: m' => if String.eqb k k' then Some v else get k m'
  end.

Definition has (k : string) (m : t) : bool :=
  match get k m with Some _ => true | None => false end.

Fixpoint set (k : string) (v : V) (m : t) : t :=
  match m with
  | [] => [(k, v)]
  | (k', v') :: m' =>
      if String.eqb k k' then (k', v) :: m' else (k', v') :: set k v m'
  end.

Fixpoint delete (k : string) (m : t) : t :=
  match m with
  | [] => []
  | (k', v') :: m' =>
      if String.eqb k k' then m' else (k', v') :: delete k m'
  end.

Definition size (m : t) : nat := List.length m.

Definition keys (m : t) : list string := map fst m.

Definition values (m : t) : list V := map snd m.
End WithValue.
Arguments t V : clear implicits.
End JsMap.

(** ** Data model *)

(** [Record<string, any>]: an open mapping to arbitrary structured values. *)
Inductive JsValue : Type :=
| JsNull
| JsBool (b : bool)
| JsNumber (x : R)
| JsString (s : string)
| JsArray (xs : list JsValue)
| JsObject (fields : list (string * JsValue)).

Definition Metadata := list (string * JsValue).

Definition Vector := list R.

Record Document : Type := mkDocument {
  id : string;
  content : string;
  metadata : option Metadata;
  embedding : option Vector
}.

(** [Omit<Document, 'embedding'>] *)
Record DocumentInput : Type := mkDocumentInput {
  input_id : string;
  input_content : string;
  input_metadata : option Metadata
}.

Record SearchResult : Type := mkSearchResult {
  document : Document;
  score : R
}.

Record MemoryVectorStoreConfig : Type := mkConfig {
  apiKey : option string;
  config_embeddingModel : option string;
  config_dimension : option Z
}.

(** [config = {}] *)
Definition defaultConfig : MemoryVectorStoreConfig := mkConfig None None None.

Record SearchOptions : Type := mkOptions {
  topK : option Z;
  threshold : option R;
  filter : option (Document -> bool)
}.

(** [options = {}] *)
Definition defaultOptions : SearchOptions := mkOptions None None None.

(** ** The embedding provider

    One request to [openai.embeddings.create]. The client either rejects
    (with a message) or answers with an embedding; what it answers may
    depend on every request made before. *)
Record EmbeddingRequest : Type := mkRequest {
  model : string;
  input : string
}.

Definition OpenAI := list EmbeddingRequest -> EmbeddingRequest -> string + Vector.

(** ** Store state

    The four private fields of the class, and two logs that record what the
    methods do to the outside: the requests sent to the provider and the
    lines written with [console.warn]. *)
Record MemoryVectorStore : Type := mkStore {
  openai : OpenAI;
  documents : JsMap.t Document;
  embeddingModel : string;
  dimension : Z;
  requests : list EmbeddingRequest;
  warnings : list string
}.

Definition withDocuments (m : JsMap.t Document) (s : MemoryVectorStore) :=
  mkStore (openai s) m (embeddingModel s) (dimension s) (requests s) (warnings s).

Definition withRequest (r : EmbeddingRequest) (s : MemoryVectorStore) :=
  mkStore (openai s) (documents s) (embeddingModel s) (dimension s)
          (requests s ++ [r])%list (warnings s).

Definition withWarning (w : string) (s : MemoryVectorStore) :=
  mkStore (openai s) (documents s) (embeddingModel s) (dimension s)
          (requests s) (warnings s ++ [w])%list.

(** ** Methods as state transformers

    A method call takes the store to a new store and either returns or
    throws; a throw keeps the changes made before it. *)
Definition M (A : Type) : Type := MemoryVectorStore -> Result A * MemoryVectorStore.

Definition ret {A} (a : A) : M A := fun s => (Ok a, s).

Definition throw {A} (e : Error) : M A := fun s => (Err e, s).

Definition bind {A B} (m : M A) (k : A -> M B) : M B :=
  fun s => match m s with
           | (Ok a, s') => k a s'
           | (Err e, s') => (Err e, s')
           end.

Definition gets {A} (f : MemoryVectorStore -> A) : M A := fun s => (Ok (f s), s).

Definition modify (f : MemoryVectorStore -> MemoryVectorStore) : M unit :=
  fun s => (Ok tt, f s).

Declare Scope store_scope.
Delimit Scope store_scope with store.
Notation "x <- m ;; k" := (bind m (fun x => k))
  (at level 61, m at next level, right associativity) : store_scope.
Notation "m ;;; k" := (bind m (fun _ => k))
  (at level 61, right associativity) : store_scope.
Open Scope store_scope.

(** [a || b] on optional strings: the empty string is falsy. *)
Definition orString (a : option string) (b : option string) : option string :=
  match a with
  | Some "" | None => b
  | Some s => Some s
  end.

(** [process.env] as far as the constructor reads it, and the client that
    [new OpenAI({ apiKey })] produces. *)
Record Environment : Type := mkEnv {
  OPENAI_API_KEY : option string;
  client : string -> OpenAI
}.

Definition constructor (env : Environment) (config : MemoryVectorStoreConfig)
  : Result MemoryVectorStore :=
  match orString (apiKey config) (OPENAI_API_KEY env) with
  | None | Some "" => Err ApiKeyRequired
  | Some key =>
      Ok (mkStore (client env key)
                  JsMap.empty
                  (match orString (config_embeddingModel config)
                                  (Some "text-embedding-3-small") with
                   | Some m => m
                   | None => "text-embedding-3-small"
                   end)
                  (match config_dimension config with
                   | Some 0%Z | None => 1536%Z
                   | Some d => d
                   end)
                  [] [])
  end.

Definition generateEmbedding (text : string) : M Vector :=
  fun s =>
    let request := mkRequest (embeddingModel s) text in
    match openai s (requests s) request with
    | inr e => (Ok e, withRequest request s)
    | inl message =>
        (Err (EmbeddingGenerationFailed ("Failed to generate embedding: " ++ message)),
         withRequest request s)
    end.

(** The loop of [cosineSimilarity]: the three running sums. *)
Definition cosineStep (acc : R * R * R) (ab : R * R) : R * R * R :=
  let '(dotProduct, magnitudeA, magnitudeB) := acc in
  let '(a, b) := ab in
  (dotProduct + a * b, magnitudeA + a * a, magnitudeB + b * b).

Definition cosineSums (a b : Vector) : R * R * R :=
  fold_left cosineStep (combine a b) (0, 0, 0).

Definition cosineSimilarity (a b : Vector) : Result R :=
  if negb (Nat.eqb (List.length a) (List.length b)) then Err VectorsLengthMismatch
  else
    let '(dotProduct, magnitudeA, magnitudeB) := cosineSums a b in
    let magnitudeA := sqrt magnitudeA in
    let magnitudeB := sqrt magnitudeB in
    if Req_dec_T magnitudeA 0 then Ok 0
    else if Req_dec_T magnitudeB 0 then Ok 0
    else Ok (dotProduct / (magnitudeA * magnitudeB)).

(** ** Document management *)

(** [this.documents.set(key, doc)] *)
Definition setDocument (key : string) (doc : Document) : M unit :=
  modify (fun s => withDocuments (JsMap.set key doc (documents s)) s).

Definition addDocument (document : DocumentInput) : M Document :=
  embedding <- generateEmbedding (input_content document) ;;
  let fullDocument :=
    mkDocument (input_id document) (input_content document)
               (input_metadata document) (Some embedding) in
  setDocument (input_id document) fullDocument ;;;
  ret fullDocument.

(** The [for ... of] loop of [addDocuments], with its [results] array. *)
Fixpoint addDocumentsLoop (documents : list DocumentInput) (results : list Document)
  : M (list Document) :=
  match documents with
  | [] => ret results
  | doc :: rest =>
      result <- addDocument doc ;;
      addDocumentsLoop rest (results ++ [result])%list
  end.

Definition addDocuments (documents : list DocumentInput) : M (list Document) :=
  addDocumentsLoop documents [].

Definition getDocument (id : string) (s : MemoryVectorStore) : option Document :=
  JsMap.get id (documents s).

Definition getAllDocuments (s : MemoryVectorStore) : list Document :=
  JsMap.values (documents s).

Definition deleteDocument (id : string) : M bool :=
  fun s => (Ok (JsMap.has id (documents s)),
            withDocuments (JsMap.delete id (documents s)) s).

Definition clear : M unit :=
  modify (withDocuments JsMap.empty).

Definition size (s : MemoryVectorStore) : nat :=
  JsMap.size (documents s).

(** ** Search *)

(** [Array.prototype.sort(compareFn)]: a stable sort; [x] goes before [y]
    when [compareFn x y <= 0] and [x] came first. *)
Fixpoint insertSorted {A} (compareFn : A -> A -> R) (x : A) (l : list A) : list A :=
  match l with
  | [] => [x]
  | y :: l' =>
      if Rle_dec (compareFn x y) 0 then x :: y :: l'
      else y :: insertSorted compareFn x l'
  end.

Definition sort {A} (compareFn : A -> A -> R) (l : list A) : list A :=
  fold_right (insertSorted compareFn) [] l.

(** [Array.prototype.slice(0, end)] for an integer [end]: a negative [end]
    counts from the end of the array. *)
Definition slice0 {A} (l : list A) (finish : Z) : list A :=
  let len := Z.of_nat (List.length l) in
  let final := if (finish <? 0)%Z then Z.max (len + finish) 0 else Z.min finish len in
  firstn (Z.to_nat final) l.

Definition rejectedBy (filter : option (Document -> bool)) (doc : Document) : bool :=
  match filter with
  | Some f => negb (f doc)
  | None => false
  end.

(** The loop over [this.documents.values()], the same text in both search
    methods, with its [results] array. *)
Fixpoint scanDocuments (queryEmbedding : Vector) (threshold : R)
    (filter : option (Document -> bool))
    (docs : list Document) (results : list SearchResult) : M (list SearchResult) :=
  match docs with
  | [] => ret results
  | doc :: rest =>
      if rejectedBy filter doc then
        scanDocuments queryEmbedding threshold filter rest results
      else
        match embedding doc with
        | None =>
            modify (withWarning ("Document " ++ id doc ++ " has no embedding, skipping")) ;;;
            scanDocuments queryEmbedding threshold filter rest results
        | Some docEmbedding =>
            match cosineSimilarity queryEmbedding docEmbedding with
            | Err e => throw e
            | Ok score =>
                if Rge_dec score threshold then
                  scanDocuments queryEmbedding threshold filter rest
                                (results ++ [mkSearchResult doc score])%list
                else
                  scanDocuments queryEmbedding threshold filter rest results
            end
        end
  end.

Definition topKOf (options : SearchOptions) : Z :=
  match topK options with Some k => k | None => 5%Z end.

Definition thresholdOf (options : SearchOptions) : R :=
  match threshold options with Some t => t | None => 0 end.

Definition byScoreDescending (a b : SearchResult) : R := score b - score a.

Definition similaritySearch (query : string) (options : SearchOptions)
  : M (list SearchResult) :=
  let topK := topKOf options in
  let threshold := thresholdOf options in
  n <- gets size ;;
  if Nat.eqb n 0 then ret []
  else
    queryEmbedding <- generateEmbedding query ;;
    docs <- gets getAllDocuments ;;
    results <- scanDocuments queryEmbedding threshold (filter options) docs [] ;;
    ret (slice0 (sort byScoreDescending results) topK).

Definition similaritySearchByVector (embedding : Vector) (options : SearchOptions)
  : M (list SearchResult) :=
  let topK := topKOf options in
  let threshold := thresholdOf options in
  n <- gets size ;;
  if Nat.eqb n 0 then ret []
  else
    dimension <- gets dimension ;;
    if negb (Z.eqb (Z.of_nat (List.length embedding)) dimension) then
      throw (EmbeddingDimensionMismatch dimension (List.length embedding))
    else
      docs <- gets getAllDocuments ;;
      results <- scanDocuments embedding threshold (filter options) docs [] ;;
      ret (slice0 (sort byScoreDescending results) topK).

(** ** Export and import *)

Definition export (s : MemoryVectorStore) : list Document :=
  getAllDocuments s.

Fixpoint import (documents : list Document) : M unit :=
  match documents with
  | [] => ret tt
  | doc :: rest =>
      match embedding doc with
      | None => throw (MissingEmbeddingForImport (id doc))
      | Some _ =>
          setDocument (id doc) doc ;;;
          import rest
      end
  end.

(** ** Sequences of calls *)

Inductive Call : Type :=
| CallAddDocument (document : DocumentInput)
| CallAddDocuments (documents : list DocumentInput)
| CallDeleteDocument (id : string)
| CallClear
| CallImport (documents : list Document)
| CallSimilaritySearch (query : string) (options : SearchOptions)
| CallSimilaritySearchByVector (embedding : Vector) (options : SearchOptions).

(** The store after one call, whether the call returned or threw. *)
Definition afterCall (c : Call) (s : MemoryVectorStore) : MemoryVectorStore :=
  match c with
  | CallAddDocument d => snd (addDocument d s)
  | CallAddDocuments ds => snd (addDocuments ds s)
  | CallDeleteDocument i => snd (deleteDocument i s)
  | CallClear => snd (clear s)
  | CallImport ds => snd (import ds s)
  | CallSimilaritySearch q o => snd (similaritySearch q o s)
  | CallSimilaritySearchByVector e o => snd (similaritySearchByVector e o s)
  end.

Definition afterCalls (cs : list Call) (s : MemoryVectorStore) : MemoryVectorStore :=
  fold_left (fun s c => afterCall c s) cs s.

(** * Notions used in the statements *)

(** ** What [cosineSimilarity] is meant to compute *)

Fixpoint dotProduct (a b : Vector) : R :=
  match a, b with
  | x :: a', y :: b' => x * y + dotProduct a' b'
  | _, _ => 0
  end.

Definition sumOfSquares (v : Vector) : R :=
  fold_right (fun x acc => x * x + acc) 0 v.

Definition magnitude (v : Vector) : R := sqrt (sumOfSquares v).

(** ** Ranking *)

Definition descending (a b : SearchResult) : Prop := score a >= score b.

(** [doc] is one of [docs], passes [filter], has an embedding, and its
    cosine similarity with [query] is [sc]. *)
Definition scored (filter : option (Document -> bool)) (query : Vector)
    (docs : list Document) (doc : Document) (sc : R) : Prop :=
  In doc docs /\
  rejectedBy filter doc = false /\
  exists e, embedding doc = Some e /\ cosineSimilarity query e = Ok sc.

(** [rs] is the ranking of [docs] against [query]: some list of candidates,
    holding exactly the scored documents that meet [threshold], sorted and
    cut at [topK]. *)
Definition ranking (topK : Z) (threshold : R) (filter : option (Document -> bool))
    (query : Vector) (docs : list Document) (rs : list SearchResult) : Prop :=
  exists candidates,
    rs = slice0 (sort byScoreDescending candidates) topK /\
    forall r, In r candidates <->
              scored filter query docs (document r) (score r) /\ score r >= threshold.

(** The request [similaritySearch] sends for [query], and its answer. *)
Definition answered (s : MemoryVectorStore) (query : string) (e : Vector) : Prop :=
  openai s (requests s) (mkRequest (embeddingModel s) query) = inr e.

(** ** Store invariants *)

Definition hasDimension (d : Z) (e : Vector) : Prop :=
  Z.of_nat (List.length e) = d.

(** Every key of the map is the id of the document stored under it. *)
Definition keyedById (m : JsMap.t Document) : Prop :=
  Forall (fun kv => fst kv = id (snd kv)) m.

(** Every resident document has an embedding, and the embedding is in [P]. *)
Definition residentEmbeddings (P : Vector -> Prop) (m : JsMap.t Document) : Prop :=
  Forall (fun doc => exists e, embedding doc = Some e /\ P e) (JsMap.values m).

(** Every embedding the provider answers with is in [P]. *)
Definition providerGives (P : Vector -> Prop) (o : OpenAI) : Prop :=
  forall history request e, o history request = inr e -> P e.

(** Every embedding handed to [import] by this call is in [P]. *)
Definition importsOnly (P : Vector -> Prop) (c : Call) : Prop :=
  match c with
  | CallImport docs =>
      Forall (fun doc => forall e, embedding doc = Some e -> P e) docs
  | _ => True
  end.

Definition invariant (P : Vector -> Prop) (d : Z) (s : MemoryVectorStore) : Prop :=
  dimension s = d /\
  providerGives P (openai s) /\
  NoDup (JsMap.keys (documents s)) /\
  keyedById (documents s) /\
  residentEmbeddings P (documents s).

(** [m] keeps [I], whether it returns or throws, and what it returns is
    in [Q]. *)
Definition keeps {A} (I : MemoryVectorStore -> Prop) (m : M A) (Q : A -> Prop) : Prop :=
  forall s, I s ->
    match m s with
    | (Ok a, s') => I s' /\ Q a
    | (Err _, s') => I s'
    end.

(** ** Example stores *)

Definition answering (e : Vector) : OpenAI := fun _ _ => inr e.

Definition failingOn (bad : string) (e : Vector) : OpenAI :=
  fun _ request =>
    if String.eqb (input request) bad then inl "quota exceeded" else inr e.

Definition testEnvironment (o : OpenAI) : Environment :=
  mkEnv (Some "test-api-key") (fun _ => o).

Definition planar : MemoryVectorStoreConfig := mkConfig None None (Some 2%Z).

Definition east : Document := mkDocument "east" "pointing east" None (Some [1; 0]).
Definition north : Document := mkDocument "north" "pointing north" None (Some [0; 1]).
Definition west : Document := mkDocument "west" "pointing west" None (Some [-1; 0]).

(** A document whose embedding has three components. *)
Definition spatial : Document := mkDocument "x" "c" None (Some [1; 2; 3]).

(** A store of dimension 2 holding nothing. *)
Definition emptyCompass (o : OpenAI) : MemoryVectorStore :=
  mkStore o [] "text-embedding-3-small" 2%Z [] [].

(** A store of dimension 2 holding [east], [north] and [west]. *)
Definition compass (o : OpenAI) : MemoryVectorStore :=
  mkStore o [("east", east); ("north", north); ("west", west)]
          "text-embedding-3-small" 2%Z [] [].

(** ** Reachable stores and falsy strings *)

(** A store a program can hold: constructed, then used through its methods. *)
Definition reachable (s : MemoryVectorStore) : Prop :=
  exists env config s0 calls,
    constructor env config = Ok s0 /\ s = afterCalls calls s0.

(** [!a] for an optional string. *)
Definition falsy (a : option string) : Prop := a = None \/ a = Some "".

(** * The command line ([src/cli.ts], with [greet] of [src/index.ts]) *)

(** The line feed and the double quote of the messages. *)
Definition nl : string := String (Ascii.ascii_of_nat 10) "".
Definition dq : string := String (Ascii.ascii_of_nat 34) "".

(** [greet(name = 'World')] *)
Definition greet (name : option string) : string :=
  "Hello, " ++ (match name with Some n => n | None => "World" end) ++ "!".

Module Cli.

(** One call of [console.log] or of [console.error]. *)
Inductive Line : Type :=
| log (text : string)
| error (text : string).

Definition showUsage : list Line :=
  [log (greet (Some "Research Gangsta"));
   log (nl ++ "Usage:");
   log "  npx research-gangsta --ingest <file.pdf>  Ingest a research paper";
   log ("  npx research-gangsta --gchat              Chat with " ++ dq ++ "The G" ++ dq);
   log (nl ++ "Examples:");
   log "  npx research-gangsta --ingest ./paper.pdf";
   log "  npx research-gangsta --gchat"].

Definition handleIngest (filePath : string) : list Line :=
  [log (greet (Some "Research Gangsta"));
   log (nl ++ "Ingesting paper: " ++ filePath);
   log (nl ++ "Paper ingestion functionality coming soon!");
   log "This will analyze and extract key information from your research paper."].

Definition handleGChat : list Line :=
  [log (greet (Some "The G"));
   log (nl ++ "Welcome to G-Chat! Chat with " ++ dq ++ "The G" ++ dq
           ++ " to upgrade your knowledge.");
   log (nl ++ "G-Chat functionality coming soon!");
   log "This will provide an interactive chat interface to discuss ingested papers."].

(** [main], given [process.argv.slice(2)]: what it writes, and the code it
    hands to [process.exit], if it gets there. *)
Definition main (args : list string) : list Line * option nat :=
  match args with
  | [] => (showUsage, Some 0%nat)
  | command :: rest =>
      if String.eqb command "--ingest" then
        match rest with
        | [] =>
            ([error "Error: --ingest requires a file path";
              log (nl ++ "Example: npx research-gangsta --ingest ./paper.pdf")],
             Some 1%nat)
        | filePath :: _ => (handleIngest filePath, None)
        end
      else if String.eqb command "--gchat" then (handleGChat, None)
      else
        ([error ("Error: Unknown command " ++ dq ++ command ++ dq); log ""]
           ++ showUsage,
         Some 1%nat)%list
  end.


End Cli.

(** * The agent's options (the [GangstaAgent] class) *)

Module GangstaAgent.

Definition GangstaAgentSupportedModels : list string :=
  ["gpt-4.1"; "gpt-4.1-nano"; "gpt-4.1-mini"; "gpt-5-nano"; "gpt-5-mini"; "gpt-5"].

(** The fields of the schema. *)
Inductive Field : Type := name | description | principles | model.

(** One issue of a failed [safeParse]: its path starts, if it is not empty,
    with a field of the schema or with an index. *)
Record ZodIssue : Type := mkIssue {
  path : list (Field + nat);
  message : string
}.

(** [{ status, error? }] *)
Record Validation : Type := mkValidation {
  status : bool;
  error : option string
}.

(** [Array.prototype.includes] on strings. *)
Definition includes (xs : list string) (x : string) : bool :=
  existsb (String.eqb x) xs.

(** [String.prototype.includes] *)
Definition stringIncludes (s sub : string) : bool :=
  match String.index 0 sub s with Some _ => true | None => false end.

(** [model] is [options.model]: a string, or [undefined] when the caller
    left it out. *)
Definition validateModel (model : option string) : Validation :=
  match model with
  | None | Some "" =>
      mkValidation false (Some "model is required and must be a string")
  | Some m =>
      if negb (includes GangstaAgentSupportedModels m) then
        mkValidation false
          (Some ("Invalid model. Supported models: "
                   ++ String.concat ", " GangstaAgentSupportedModels))
      else mkValidation true None
  end.

Definition fieldErrors (f : Field) : string :=
  match f with
  | name => "name is required and must be a string"
  | description => "description is required and must be a string"
  | principles => "principles is required and must be an array of strings"
  | model => "model is required and must be a string"
  end.

(** The loop over [result.error.errors]: the first issue whose path starts
    with a field decides. *)
Fixpoint firstFieldError (errors : list ZodIssue) : option string :=
  match errors with
  | [] => None
  | err :: rest =>
      match path err with
      | inl f :: _ =>
          let custom := fieldErrors f in
          Some (if negb (stringIncludes custom (message err))
                then custom ++ " (" ++ message err ++ ")"
                else custom)
      | _ => firstFieldError rest
      end
  end.

(** [validateOptions], given [options.model] and what
    [GangstaAgentInitializationOptionsSchema.safeParse(options)] answers:
    nothing on success, the issues otherwise. *)
Definition validateOptions (model : option string) (parsed : option (list ZodIssue))
  : Validation :=
  let modelValidation := validateModel model in
  if negb (status modelValidation) then
    mkValidation false (error modelValidation)
  else
    match parsed with
    | None => mkValidation true None
    | Some errors =>
        match firstFieldError errors with
        | Some custom => mkValidation false (Some custom)
        | None =>
            mkValidation false (Some (String.concat "; " (map message errors)))
        end
    end.

(** The constructor: it returns, or throws
    [GangstaAgentInitializationOptionsError] with this message. *)
Definition constructor (model : option string) (parsed : option (list ZodIssue))
  : option string :=
  let validationResult := validateOptions model parsed in
  if negb (status validationResult) then
    Some (match error validationResult with
          | None | Some "" => "Invalid options"
          | Some e => e
          end)
  else None.

(** [String.prototype.endsWith] *)
Definition endsWith (s suffix : string) : bool :=
  let n := String.length s in
  let m := String.length suffix in
  if Nat.leb m n then String.eqb (String.substring (n - m) m s) suffix else false.

(** [loadFile], given what [readFile] and the PDF parser answer: each either
    rejects with a message or gives its result. *)
Definition loadFile {Buffer : Type}
    (readFile : string -> string + Buffer) (getText : Buffer -> string + string)
    (filePath : string) : string + string :=
  match readFile filePath with
  | inl rejected => inl rejected
  | inr file =>
      if endsWith filePath ".pdf" then getText file
      else inl ("Unsupported file type: " ++ filePath
                  ++ ". Only PDF files are supported.")
  end.

End GangstaAgent.

(** ** Deciding comparisons of reals in examples *)

Ltac decide_real :=
  match goal with
  | |- context [Rge_dec ?x ?y] => destruct (Rge_dec x y); try lra
  | |- context [Rle_dec ?x ?y] => destruct (Rle_dec x y); try lra
  | |- context [Req_dec_T ?x ?y] => destruct (Req_dec_T x y); try lra
  end.

(** * Properties *)

(** ** The map *)

Module JsMapFacts.
Section WithValue.
Context {V : Type}.
Implicit Types (m : JsMap.t V) (k : string) (v : V).

Lemma keys_set m k v :
  JsMap.keys (JsMap.set k v m)
  = if JsMap.has k m then JsMap.keys m else (JsMap.keys m ++ [k])%list.
Proof.
  unfold JsMap.has.
  induction m as [|[k' v'] m IH]; simpl; [reflexivity|].
  destruct (String.eqb k k') eqn:E; simpl; [reflexivity|].
  rewrite IH. destruct (JsMap.get k m); reflexivity.
Qed.

Lemma has_true_iff m k : JsMap.has k m = true <-> In k (JsMap.keys m).
Proof.
  unfold JsMap.has.
  induction m as [|[k' v'] m IH]; simpl.
  - split; [discriminate | tauto].
  - destruct (String.eqb k k') eqn:E.
    + apply String.eqb_eq in E. subst. tauto.
    + apply String.eqb_neq in E. rewrite IH. split; [tauto|].
      intros [H|H]; [congruence | assumption].
Qed.

Lemma set_absent m k v :
  ~ In k (JsMap.keys m) -> JsMap.set k v m = (m ++ [(k, v)])%list.
Proof.
  induction m as [|[k' v'] m IH]; simpl; intros H; [reflexivity|].
  destruct (String.eqb k k') eqn:E.
  - apply String.eqb_eq in E. subst. tauto.
  - rewrite IH by tauto. reflexivity.
Qed.

Lemma NoDup_keys_set m k v :
  NoDup (JsMap.keys m) -> NoDup (JsMap.keys (JsMap.set k v m)).
Proof.
  intros H. rewrite keys_set.
  destruct (JsMap.has k m) eqn:E; [assumption|].
  apply NoDup_app; [assumption | repeat constructor; simpl; tauto |].
  intros x Hx [<-|[]].
  apply has_true_iff in Hx. congruence.
Qed.

Lemma In_set m k v kv :
  In kv (JsMap.set k v m) -> In kv m \/ kv = (k, v).
Proof.
  induction m as [|[k' v'] m IH]; simpl.
  - intros [<-|[]]. tauto.
  - destruct (String.eqb k k') eqn:E; simpl.
    + apply String.eqb_eq in E. subst. intros [<-|H]; tauto.
    + intros [<-|H]; [tauto|]. destruct (IH H); tauto.
Qed.

Lemma In_delete m k kv : In kv (JsMap.delete k m) -> In kv m.
Proof.
  induction m as [|[k' v'] m IH]; simpl; [tauto|].
  destruct (String.eqb k k'); simpl; tauto.
Qed.

Lemma NoDup_keys_delete m k :
  NoDup (JsMap.keys m) -> NoDup (JsMap.keys (JsMap.delete k m)).
Proof.
  induction m as [|[k' v'] m IH]; simpl; intros H; [constructor|].
  inversion_clear H as [|? ? Hnot Hm].
  destruct (String.eqb k k'); simpl; [assumption|].
  constructor; [|auto].
  intros Hin. apply Hnot.
  apply in_map_iff in Hin. destruct Hin as [kv [<- Hkv]].
  apply in_map. eapply In_delete; eassumption.
Qed.

Lemma get_set_same m k v : JsMap.get k (JsMap.set k v m) = Some v.
Proof.
  induction m as [|[k' v'] m IH]; simpl.
  - rewrite String.eqb_refl. reflexivity.
  - destruct (String.eqb k k') eqn:E; simpl; rewrite E; auto.
Qed.

Lemma get_set_other m k k' v :
  k' <> k -> JsMap.get k' (JsMap.set k v m) = JsMap.get k' m.
Proof.
  intros Hne.
  induction m as [|[k0 v0] m IH]; simpl.
  - apply String.eqb_neq in Hne. rewrite Hne. reflexivity.
  - destruct (String.eqb k k0) eqn:E; simpl; [|rewrite IH; reflexivity].
    apply String.eqb_eq in E. subst k0.
    apply String.eqb_neq in Hne. rewrite Hne. reflexivity.
Qed.

Lemma Forall_values_set (Q : V -> Prop) m k v :
  Forall Q (JsMap.values m) -> Q v -> Forall Q (JsMap.values (JsMap.set k v m)).
Proof.
  intros Hm Hv. rewrite Forall_forall in *.
  intros x Hx. apply in_map_iff in Hx. destruct Hx as [kv [<- Hkv]].
  destruct (In_set _ _ _ _ Hkv) as [H| ->]; [|assumption].
  apply Hm. apply in_map. assumption.
Qed.

Lemma Forall_values_delete (Q : V -> Prop) m k :
  Forall Q (JsMap.values m) -> Forall Q (JsMap.values (JsMap.delete k m)).
Proof.
  intros Hm. rewrite Forall_forall in *.
  intros x Hx. apply in_map_iff in Hx. destruct Hx as [kv [<- Hkv]].
  apply Hm. apply in_map. eapply In_delete; eassumption.
Qed.

End WithValue.
End JsMapFacts.

(** ** Cosine similarity *)

Section Cosine.

Lemma cosineSums_from (a : Vector) :
  forall (b : Vector) (d ma mb : R),
    List.length a = List.length b ->
    fold_left cosineStep (combine a b) (d, ma, mb)
    = (d + dotProduct a b, ma + sumOfSquares a, mb + sumOfSquares b).
Proof.
  induction a as [|x a IH]; intros [|y b] d ma mb Hlen; simpl in Hlen; try discriminate.
  - simpl. f_equal; [f_equal|]; lra.
  - simpl. rewrite IH by congruence. f_equal; [f_equal|]; lra.
Qed.

Lemma cosineSums_spec (a b : Vector) :
  List.length a = List.length b ->
  cosineSums a b = (dotProduct a b, sumOfSquares a, sumOfSquares b).
Proof.
  intros Hlen. unfold cosineSums. rewrite cosineSums_from by assumption.
  f_equal; [f_equal|]; lra.
Qed.

Lemma dotProduct_comm (a : Vector) :
  forall b, dotProduct a b = dotProduct b a.
Proof.
  induction a as [|x a IH]; intros [|y b]; simpl; try reflexivity.
  rewrite IH. lra.
Qed.

Lemma sumOfSquares_zero (z : Vector) :
  Forall (fun x => x = 0) z -> sumOfSquares z = 0.
Proof.
  induction 1 as [|x z Hx _ IH]; simpl; [reflexivity|].
  rewrite IH, Hx. lra.
Qed.

(** The value on equal lengths, by cases on the two magnitudes. *)
Lemma cosineSimilarity_eq (a b : Vector) :
  List.length a = List.length b ->
  cosineSimilarity a b
  = if Req_dec_T (magnitude a) 0 then Ok 0
    else if Req_dec_T (magnitude b) 0 then Ok 0
    else Ok (dotProduct a b / (magnitude a * magnitude b)).
Proof.
  intros Hlen. unfold cosineSimilarity.
  rewrite Hlen, Nat.eqb_refl. simpl.
  rewrite cosineSums_spec by assumption. reflexivity.
Qed.

Lemma cosineSimilarity_mismatch (a b : Vector) :
  List.length a <> List.length b ->
  cosineSimilarity a b = Err VectorsLengthMismatch.
Proof.
  intros Hlen. unfold cosineSimilarity.
  apply Nat.eqb_neq in Hlen. rewrite Hlen. reflexivity.
Qed.

End Cosine.

(** C7. For equal-length vectors [a] and [b], if [a] or [b] has zero
    magnitude then [cosineSimilarity a b] returns 0 and does not fail; in
    particular, it returns 0 whenever every component of [a] is 0. *)
Theorem cosineSimilarity_zero_magnitude (a b : Vector) :
  List.length a = List.length b ->
  (magnitude a = 0 \/ magnitude b = 0 -> cosineSimilarity a b = Ok 0) /\
  (Forall (fun x => x = 0) a -> cosineSimilarity a b = Ok 0).
Proof.
  intros Hlen.
  assert (Hmag : magnitude a = 0 \/ magnitude b = 0 -> cosineSimilarity a b = Ok 0).
  { intros H. rewrite cosineSimilarity_eq by assumption.
    destruct (Req_dec_T (magnitude a) 0) as [|Ha]; [reflexivity|].
    destruct (Req_dec_T (magnitude b) 0) as [|Hb]; [reflexivity|].
    destruct H; contradiction. }
  split; [exact Hmag|].
  intros Hz. apply Hmag. left.
  unfold magnitude. rewrite sumOfSquares_zero by assumption. apply sqrt_0.
Qed.

Lemma cosineSimilarity_zero_magnitude_witness :
  cosineSimilarity [0; 0] [3; 4] = Ok 0.
Proof.
  apply (cosineSimilarity_zero_magnitude [0; 0] [3; 4]).
  - reflexivity.
  - repeat constructor.
Defined.

(** C10. [cosineSimilarity] is symmetric: for equal-length vectors [a] and
    [b], both [cosineSimilarity a b] and [cosineSimilarity b a] return, and
    they return the same number. *)
Theorem cosineSimilarity_symmetric (a b : Vector) :
  List.length a = List.length b ->
  exists r, cosineSimilarity a b = Ok r /\ cosineSimilarity b a = Ok r.
Proof.
  intros Hlen.
  rewrite (cosineSimilarity_eq a b), (cosineSimilarity_eq b a) by congruence.
  destruct (Req_dec_T (magnitude a) 0) as [Ha|Ha];
    destruct (Req_dec_T (magnitude b) 0) as [Hb|Hb];
    try (exists 0; split; reflexivity).
  eexists. split; [reflexivity|].
  rewrite (dotProduct_comm b a), (Rmult_comm (magnitude b)). reflexivity.
Qed.

Lemma cosineSimilarity_symmetric_witness :
  exists r, cosineSimilarity [1; 2] [3; 4] = Ok r /\ cosineSimilarity [3; 4] [1; 2] = Ok r.
Proof.
  apply (cosineSimilarity_symmetric [1; 2] [3; 4]). reflexivity.
Defined.

(** ** Rules for [keeps] *)

Section Keeps.
Context (I : MemoryVectorStore -> Prop).

Lemma keeps_ret {A} (a : A) (Q : A -> Prop) : Q a -> keeps I (ret a) Q.
Proof. intros Ha s Hs. simpl. auto. Qed.

Lemma keeps_throw {A} (e : Error) (Q : A -> Prop) : keeps I (throw e) Q.
Proof. intros s Hs. exact Hs. Qed.

Lemma keeps_gets {A} (f : MemoryVectorStore -> A) :
  keeps I (gets f) (fun _ => True).
Proof. intros s Hs. simpl. auto. Qed.

Lemma keeps_bind {A B} (m : M A) (k : A -> M B) (Q : A -> Prop) (Q' : B -> Prop) :
  keeps I m Q -> (forall a, Q a -> keeps I (k a) Q') -> keeps I (bind m k) Q'.
Proof.
  intros Hm Hk s Hs. unfold bind. specialize (Hm s Hs).
  destruct (m s) as [[a|e] s']; [|assumption].
  destruct Hm as [Hs' Ha]. exact (Hk a Ha s' Hs').
Qed.

Lemma keeps_weaken {A} (m : M A) (Q Q' : A -> Prop) :
  keeps I m Q -> (forall a, Q a -> Q' a) -> keeps I m Q'.
Proof.
  intros Hm HQ s Hs. specialize (Hm s Hs).
  destruct (m s) as [[a|e] s']; [|assumption].
  destruct Hm; auto.
Qed.

Lemma keeps_modify (f : MemoryVectorStore -> MemoryVectorStore) :
  (forall s, I s -> I (f s)) -> keeps I (modify f) (fun _ => True).
Proof. intros Hf s Hs. simpl. auto. Qed.

Lemma keeps_snd {A} (m : M A) (Q : A -> Prop) s :
  keeps I m Q -> I s -> I (snd (m s)).
Proof.
  intros Hm Hs. specialize (Hm s Hs).
  destruct (m s) as [[a|e] s']; simpl; tauto.
Qed.
End Keeps.

(** ** The invariant is kept by every method *)

Section Invariant.
Context (P : Vector -> Prop) (d : Z).

Lemma invariant_withRequest r s : invariant P d s -> invariant P d (withRequest r s).
Proof. intros H. exact H. Qed.

Lemma invariant_withWarning w s : invariant P d s -> invariant P d (withWarning w s).
Proof. intros H. exact H. Qed.

Lemma keeps_generateEmbedding text : keeps (invariant P d) (generateEmbedding text) P.
Proof.
  intros s Hs. unfold generateEmbedding.
  destruct (openai s (requests s) _) as [msg|e] eqn:E.
  - apply invariant_withRequest, Hs.
  - split; [apply invariant_withRequest, Hs|].
    destruct Hs as (_ & Hp & _). eapply Hp, E.
Qed.

Lemma keeps_setDocument doc :
  (exists e, embedding doc = Some e /\ P e) ->
  keeps (invariant P d) (setDocument (id doc) doc) (fun _ => True).
Proof.
  intros He. apply keeps_modify.
  intros s (Hd & Hp & Hn & Hk & Hr).
  repeat split; simpl; try assumption.
  - apply JsMapFacts.NoDup_keys_set, Hn.
  - unfold keyedById in *. rewrite Forall_forall in *.
    intros kv Hkv. destruct (JsMapFacts.In_set _ _ _ _ Hkv) as [H| ->]; auto.
  - apply JsMapFacts.Forall_values_set; assumption.
Qed.

Lemma keeps_addDocument doc :
  keeps (invariant P d) (addDocument doc) (fun _ => True).
Proof.
  unfold addDocument.
  eapply keeps_bind; [apply keeps_generateEmbedding|].
  intros e He.
  eapply keeps_bind; [|intros; apply keeps_ret; exact Logic.I].
  apply (keeps_setDocument (mkDocument _ _ _ (Some e))).
  exists e. auto.
Qed.

Lemma keeps_addDocumentsLoop docs :
  forall results, keeps (invariant P d) (addDocumentsLoop docs results) (fun _ => True).
Proof.
  induction docs as [|doc rest IH]; intros results; simpl.
  - apply keeps_ret. exact Logic.I.
  - eapply keeps_bind; [apply keeps_addDocument|].
    intros. apply IH.
Qed.

Lemma keeps_deleteDocument i : keeps (invariant P d) (deleteDocument i) (fun _ => True).
Proof.
  intros s (Hd & Hp & Hn & Hk & Hr). simpl.
  split; [|exact Logic.I].
  repeat split; simpl; try assumption.
  - apply JsMapFacts.NoDup_keys_delete, Hn.
  - unfold keyedById in *. rewrite Forall_forall in *.
    intros kv Hkv. apply Hk. eapply JsMapFacts.In_delete; eassumption.
  - apply JsMapFacts.Forall_values_delete, Hr.
Qed.

Lemma keeps_clear : keeps (invariant P d) clear (fun _ => True).
Proof.
  apply keeps_modify. intros s (Hd & Hp & _).
  repeat split; simpl; try assumption; constructor.
Qed.

Lemma keeps_scanDocuments q t f docs :
  forall results, keeps (invariant P d) (scanDocuments q t f docs results) (fun _ => True).
Proof.
  induction docs as [|doc rest IH]; intros results; simpl.
  - apply keeps_ret. exact Logic.I.
  - destruct (rejectedBy f doc); [apply IH|].
    destruct (embedding doc) as [e|].
    + destruct (cosineSimilarity q e) as [sc|err]; [|apply keeps_throw].
      destruct (Rge_dec sc t); apply IH.
    + eapply keeps_bind; [|intros; apply IH].
      apply keeps_modify. intros s. apply invariant_withWarning.
Qed.

Lemma keeps_similaritySearch q o :
  keeps (invariant P d) (similaritySearch q o) (fun _ => True).
Proof.
  unfold similaritySearch.
  eapply keeps_bind; [apply keeps_gets|]. intros n _.
  destruct (Nat.eqb n 0); [apply keeps_ret; exact Logic.I|].
  eapply keeps_bind; [apply keeps_generateEmbedding|]. intros e _.
  eapply keeps_bind; [apply keeps_gets|]. intros docs _.
  eapply keeps_bind; [apply keeps_scanDocuments|]. intros.
  apply keeps_ret. exact Logic.I.
Qed.

Lemma keeps_similaritySearchByVector e o :
  keeps (invariant P d) (similaritySearchByVector e o) (fun _ => True).
Proof.
  unfold similaritySearchByVector.
  eapply keeps_bind; [apply keeps_gets|]. intros n _.
  destruct (Nat.eqb n 0); [apply keeps_ret; exact Logic.I|].
  eapply keeps_bind; [apply keeps_gets|]. intros dim _.
  destruct (negb _); [apply keeps_throw|].
  eapply keeps_bind; [apply keeps_gets|]. intros docs _.
  eapply keeps_bind; [apply keeps_scanDocuments|]. intros.
  apply keeps_ret. exact Logic.I.
Qed.

Lemma keeps_import docs :
  Forall (fun doc => forall e, embedding doc = Some e -> P e) docs ->
  keeps (invariant P d) (import docs) (fun _ => True).
Proof.
  induction 1 as [|doc rest Hdoc _ IH]; simpl.
  - apply keeps_ret. exact Logic.I.
  - destruct (embedding doc) as [e|] eqn:E; [|apply keeps_throw].
    eapply keeps_bind; [|intros; apply IH].
    apply keeps_setDocument. exists e. auto.
Qed.

Lemma invariant_afterCall c s :
  importsOnly P c -> invariant P d s -> invariant P d (afterCall c s).
Proof.
  intros Hc Hs.
  destruct c; unfold afterCall; (eapply keeps_snd; [|exact Hs]).
  - apply keeps_addDocument.
  - apply keeps_addDocumentsLoop.
  - apply keeps_deleteDocument.
  - apply keeps_clear.
  - apply keeps_import, Hc.
  - apply keeps_similaritySearch.
  - apply keeps_similaritySearchByVector.
Qed.

Lemma invariant_afterCalls cs :
  forall s,
    Forall (importsOnly P) cs -> invariant P d s -> invariant P d (afterCalls cs s).
Proof.
  induction cs as [|c cs IH]; intros s Hcs Hs; simpl; [assumption|].
  inversion_clear Hcs. apply IH; [assumption|].
  apply invariant_afterCall; assumption.
Qed.

Lemma invariant_constructor env config s :
  constructor env config = Ok s ->
  providerGives P (openai s) -> dimension s = d -> invariant P d s.
Proof.
  unfold constructor. intros H Hp Hd.
  destruct (orString _ _) as [[|c key]|]; try discriminate.
  injection H as <-. repeat split; simpl in *; try assumption; constructor.
Qed.
End Invariant.

(** ** Resident embeddings *)

Lemma providerGives_anything (o : OpenAI) : providerGives (fun _ => True) o.
Proof. intros h r e _. exact I. Qed.

Lemma importsOnly_anything (calls : list Call) :
  Forall (importsOnly (fun _ => True)) calls.
Proof.
  apply Forall_forall. intros [] _; simpl; auto.
  apply Forall_forall. auto.
Qed.

(** Every store a program can reach satisfies the invariant, whatever the
    provider answers and whatever is imported. *)
Lemma reachable_invariant env config s0 calls :
  constructor env config = Ok s0 ->
  invariant (fun _ => True) (dimension s0) (afterCalls calls s0).
Proof.
  intros Hc. apply invariant_afterCalls; [apply importsOnly_anything|].
  eapply invariant_constructor; eauto using providerGives_anything.
Qed.

(** C2, as the code has it. After any sequence of calls on a constructed
    store, every resident document has an embedding. The embedding has the
    configured dimension when every embedding the provider answers with and
    every embedding of an imported document has it; neither [addDocument]
    nor [import] looks at the length. *)
Theorem resident_documents_have_embeddings env config s0 calls :
  constructor env config = Ok s0 ->
  (forall doc, In doc (getAllDocuments (afterCalls calls s0)) ->
     embedding doc <> None) /\
  (providerGives (hasDimension (dimension s0)) (openai s0) ->
   Forall (importsOnly (hasDimension (dimension s0))) calls ->
   forall doc, In doc (getAllDocuments (afterCalls calls s0)) ->
     exists e, embedding doc = Some e /\
               Z.of_nat (List.length e) = dimension (afterCalls calls s0)).
Proof.
  intros Hc. split.
  - intros doc Hdoc.
    destruct (reachable_invariant env config s0 calls Hc) as (_ & _ & _ & _ & Hr).
    unfold residentEmbeddings in Hr. rewrite Forall_forall in Hr.
    destruct (Hr doc Hdoc) as (e & -> & _). discriminate.
  - intros Hp Hcalls doc Hdoc.
    assert (Hinv : invariant (hasDimension (dimension s0)) (dimension s0)
                             (afterCalls calls s0)).
    { apply invariant_afterCalls; [assumption|].
      eapply invariant_constructor; eauto. }
    destruct Hinv as (Hd & _ & _ & _ & Hr).
    unfold residentEmbeddings in Hr. rewrite Forall_forall in Hr.
    destruct (Hr doc Hdoc) as (e & He & Hlen).
    exists e. split; [assumption|]. rewrite Hd. exact Hlen.
Qed.

Lemma resident_documents_have_embeddings_witness :
  (forall doc,
     In doc (getAllDocuments
               (afterCalls [CallImport [east; north]; CallDeleteDocument "east";
                            CallAddDocument (mkDocumentInput "a" "text" None)]
                           (emptyCompass (answering [1; 0])))) ->
     embedding doc <> None) /\
  (forall doc,
     In doc (getAllDocuments
               (afterCalls [CallImport [east; north]; CallDeleteDocument "east";
                            CallAddDocument (mkDocumentInput "a" "text" None)]
                           (emptyCompass (answering [1; 0])))) ->
     exists e, embedding doc = Some e /\ Z.of_nat (List.length e) = 2%Z).
Proof.
  destruct (resident_documents_have_embeddings
              (testEnvironment (answering [1; 0])) planar
              (emptyCompass (answering [1; 0]))
              [CallImport [east; north]; CallDeleteDocument "east";
               CallAddDocument (mkDocumentInput "a" "text" None)]
              eq_refl) as [Hsome Hdim].
  split; [exact Hsome|].
  apply Hdim.
  - intros h r e He. injection He as <-. reflexivity.
  - repeat constructor; simpl; intros e He; injection He as <-; reflexivity.
Defined.

(** C2 as stated fails: [import] stores an embedding of length 3 in a store
    of dimension 2. *)
Lemma import_admits_wrong_dimension :
  constructor (testEnvironment (answering [1; 0])) planar
    = Ok (emptyCompass (answering [1; 0])) /\
  getAllDocuments (afterCalls [CallImport [spatial]] (emptyCompass (answering [1; 0])))
    = [spatial] /\
  embedding spatial = Some [1; 2; 3] /\
  Z.of_nat (List.length [1; 2; 3]) <> dimension (afterCalls [CallImport [spatial]]
                                                (emptyCompass (answering [1; 0]))).
Proof.
  repeat split. simpl. discriminate.
Qed.

(** ** Export and import *)

Lemma import_values (m2 : JsMap.t Document) :
  forall (m1 : JsMap.t Document) (s : MemoryVectorStore),
    documents s = m1 ->
    NoDup (JsMap.keys (m1 ++ m2)%list) ->
    keyedById m2 ->
    Forall (fun doc => embedding doc <> None) (JsMap.values m2) ->
    import (JsMap.values m2) s = (Ok tt, withDocuments (m1 ++ m2)%list s).
Proof.
  induction m2 as [|[k v] m2 IH]; intros m1 s Hs Hnd Hk He; simpl.
  - rewrite app_nil_r, <- Hs. destruct s; reflexivity.
  - inversion_clear Hk as [|? ? Hkv Hk']. inversion_clear He as [|? ? Hv He'].
    simpl in Hkv, Hv. subst k.
    destruct (embedding v) eqn:E; [|congruence].
    unfold bind, setDocument, modify.
    assert (Hfresh : ~ In (id v) (JsMap.keys m1)).
    { unfold JsMap.keys in Hnd. rewrite map_app in Hnd. simpl in Hnd.
      apply NoDup_remove_2 in Hnd. intros Hin. apply Hnd.
      apply in_or_app. left. exact Hin. }
    rewrite Hs, JsMapFacts.set_absent by assumption.
    rewrite (IH (m1 ++ [(id v, v)])%list).
    + rewrite <- app_assoc. reflexivity.
    + reflexivity.
    + rewrite <- app_assoc. exact Hnd.
    + assumption.
    + assumption.
Qed.

(** C4. Importing the export of a reachable store into a freshly
    constructed store succeeds, and the store it leaves has the same size
    and returns, for every id, the same document (content, metadata and
    embedding). The two configurations need not even match. *)
Theorem import_export_round_trip env config s0 calls env' config' fresh :
  constructor env config = Ok s0 ->
  constructor env' config' = Ok fresh ->
  exists restored,
    import (export (afterCalls calls s0)) fresh = (Ok tt, restored) /\
    size restored = size (afterCalls calls s0) /\
    forall i, getDocument i restored = getDocument i (afterCalls calls s0).
Proof.
  intros Hc Hfresh.
  destruct (reachable_invariant env config s0 calls Hc) as (_ & _ & Hn & Hk & Hr).
  assert (Hempty : documents fresh = []).
  { unfold constructor in Hfresh.
    destruct (orString _ _) as [[|c key]|]; try discriminate.
    injection Hfresh as <-. reflexivity. }
  eexists. split; [|split].
  - unfold export, getAllDocuments.
    apply (import_values _ [] fresh Hempty); try assumption.
    unfold residentEmbeddings in Hr.
    eapply Forall_impl; [|exact Hr].
    intros doc (e & -> & _). discriminate.
  - reflexivity.
  - reflexivity.
Qed.

Lemma import_export_round_trip_witness :
  exists restored,
    import (export (afterCalls [CallImport [east; north; west];
                                CallAddDocument (mkDocumentInput "north" "again" None)]
                               (emptyCompass (answering [1; 0]))))
           (emptyCompass (answering [0; 1]))
      = (Ok tt, restored) /\
    size restored = 3%nat /\
    getDocument "north" restored
      = Some (mkDocument "north" "again" None (Some [1; 0])).
Proof.
  destruct (import_export_round_trip
              (testEnvironment (answering [1; 0])) planar
              (emptyCompass (answering [1; 0]))
              [CallImport [east; north; west];
               CallAddDocument (mkDocumentInput "north" "again" None)]
              (testEnvironment (answering [0; 1])) planar
              (emptyCompass (answering [0; 1]))
              eq_refl eq_refl) as (restored & Himport & Hsize & Hget).
  exists restored. split; [exact Himport|]. split.
  - rewrite Hsize. reflexivity.
  - rewrite Hget. reflexivity.
Defined.

(** ** Searching an empty store *)

(** C9. On a store holding zero documents [similaritySearch] returns the
    empty array and leaves the store as it was: no request is sent to the
    provider, whatever the provider would have answered. *)
Theorem similaritySearch_empty_store query options s :
  size s = 0%nat ->
  similaritySearch query options s = (Ok [], s).
Proof.
  intros Hsize. unfold similaritySearch, bind, gets.
  rewrite Hsize. reflexivity.
Qed.

Lemma similaritySearch_empty_store_witness :
  fst (generateEmbedding "anything" (emptyCompass (failingOn "anything" [1; 0])))
    = Err (EmbeddingGenerationFailed "Failed to generate embedding: quota exceeded") /\
  similaritySearch "anything" (mkOptions (Some 3%Z) (Some 1) None)
                   (emptyCompass (failingOn "anything" [1; 0]))
    = (Ok [], emptyCompass (failingOn "anything" [1; 0])).
Proof.
  split; [reflexivity|].
  apply (similaritySearch_empty_store "anything" _
           (emptyCompass (failingOn "anything" [1; 0]))).
  reflexivity.
Defined.

(** C1 as stated fails: on a store holding zero documents a query vector of
    the wrong length is answered with the empty array. *)
Lemma similaritySearchByVector_empty_store_unchecked :
  size (emptyCompass (answering [1; 0])) = 0%nat /\
  Z.of_nat (List.length [1; 2; 3]) <> dimension (emptyCompass (answering [1; 0])) /\
  similaritySearchByVector [1; 2; 3] defaultOptions (emptyCompass (answering [1; 0]))
    = (Ok [], emptyCompass (answering [1; 0])).
Proof.
  split; [reflexivity|]. split; [simpl; discriminate|]. reflexivity.
Qed.

(** C1, as the code has it. For a query vector whose length differs from
    the configured dimension, [similaritySearchByVector] on a store holding
    at least one document throws the dimension error and leaves the store
    as it was (no document is scanned, no warning is written); on a store
    holding zero documents it returns the empty array. *)
Theorem similaritySearchByVector_wrong_dimension e options s :
  Z.of_nat (List.length e) <> dimension s ->
  (size s <> 0%nat ->
   isDimensionMismatchError (EmbeddingDimensionMismatch (dimension s) (List.length e)) = true /\
   similaritySearchByVector e options s
   = (Err (EmbeddingDimensionMismatch (dimension s) (List.length e)), s)) /\
  (size s = 0%nat -> similaritySearchByVector e options s = (Ok [], s)).
Proof.
  intros Hdim. unfold similaritySearchByVector, bind, gets. split.
  - intros Hsize. split; [reflexivity|].
    apply Nat.eqb_neq in Hsize. rewrite Hsize.
    apply Z.eqb_neq in Hdim. rewrite Hdim. reflexivity.
  - intros Hsize. rewrite Hsize. reflexivity.
Qed.

Lemma similaritySearchByVector_wrong_dimension_witness :
  similaritySearchByVector [1; 2; 3] defaultOptions (compass (answering [1; 0]))
  = (Err (EmbeddingDimensionMismatch 2 3), compass (answering [1; 0])).
Proof.
  apply (similaritySearchByVector_wrong_dimension
           [1; 2; 3] defaultOptions (compass (answering [1; 0]))).
  - simpl. discriminate.
  - simpl. discriminate.
Defined.

(** ** Batches *)

Lemma addDocument_returns doc s result s1 :
  addDocument doc s = (Ok result, s1) ->
  exists e,
    result = mkDocument (input_id doc) (input_content doc) (input_metadata doc) (Some e) /\
    documents s1 = JsMap.set (input_id doc) result (documents s).
Proof.
  unfold addDocument, bind, generateEmbedding, setDocument, modify, ret.
  destruct (openai s (requests s) _) as [msg|e]; [discriminate|].
  intros H. injection H as <- <-. exists e. split; reflexivity.
Qed.

Lemma addDocument_throws doc s e s2 :
  addDocument doc s = (Err e, s2) ->
  s2 = withRequest (mkRequest (embeddingModel s) (input_content doc)) s /\
  exists message, e = EmbeddingGenerationFailed message.
Proof.
  unfold addDocument, bind, generateEmbedding, setDocument, modify, ret.
  destruct (openai s (requests s) _) as [msg|emb]; [|discriminate].
  intros H. injection H as <- <-. split; [reflexivity|]. eexists. reflexivity.
Qed.

(** A batch is its prefix followed by its suffix. *)
Lemma addDocumentsLoop_app pre :
  forall post results s,
    addDocumentsLoop (pre ++ post) results s
    = match addDocumentsLoop pre results s with
      | (Ok results', s1) => addDocumentsLoop post results' s1
      | (Err e, s1) => (Err e, s1)
      end.
Proof.
  induction pre as [|doc pre IH]; intros post results s; simpl; [reflexivity|].
  unfold bind. destruct (addDocument doc s) as [[result|e] s1]; [|reflexivity].
  apply IH.
Qed.

(** Entries with other ids leave the document under [k] alone. *)
Lemma addDocumentsLoop_get_other k docs :
  forall results s results' s1,
    ~ In k (map input_id docs) ->
    addDocumentsLoop docs results s = (Ok results', s1) ->
    getDocument k s1 = getDocument k s.
Proof.
  induction docs as [|doc docs IH]; intros results s results' s1 Hk; simpl.
  - intros H. injection H as _ <-. reflexivity.
  - unfold bind. destruct (addDocument doc s) as [[result|e] s0] eqn:E; [|discriminate].
    intros H. simpl in Hk.
    rewrite (IH _ _ _ _ (fun Hin => Hk (or_intror Hin)) H).
    destruct (addDocument_returns _ _ _ _ E) as (emb & _ & Hdocs).
    unfold getDocument. rewrite Hdocs.
    apply JsMapFacts.get_set_other. intros ->. apply Hk. left. reflexivity.
Qed.

(** A key of the map stays a key through a batch. *)
Lemma addDocumentsLoop_has k docs :
  forall results s results' s1,
    addDocumentsLoop docs results s = (Ok results', s1) ->
    JsMap.has k (documents s) = true \/ In k (map input_id docs) ->
    JsMap.has k (documents s1) = true.
Proof.
  induction docs as [|doc docs IH]; intros results s results' s1; simpl.
  - intros H. injection H as _ <-. tauto.
  - unfold bind. destruct (addDocument doc s) as [[result|e] s0] eqn:E; [|discriminate].
    intros H Hk. apply (IH _ _ _ _ H).
    destruct (addDocument_returns _ _ _ _ E) as (emb & _ & Hdocs).
    destruct Hk as [Hk|[Hk|Hk]]; [left|left|right; assumption].
    + rewrite Hdocs. apply JsMapFacts.has_true_iff.
      apply JsMapFacts.has_true_iff in Hk. rewrite JsMapFacts.keys_set.
      destruct (JsMap.has _ _); [assumption|]. apply in_or_app. left. exact Hk.
    + subst k. rewrite Hdocs. unfold JsMap.has.
      rewrite JsMapFacts.get_set_same. reflexivity.
Qed.

(** With distinct ids, every entry of a batch is resident afterwards. *)
Lemma addDocumentsLoop_committed docs :
  forall results s results' s1,
    NoDup (map input_id docs) ->
    addDocumentsLoop docs results s = (Ok results', s1) ->
    forall x, In x docs ->
      exists e, getDocument (input_id x) s1
                = Some (mkDocument (input_id x) (input_content x) (input_metadata x) (Some e)).
Proof.
  induction docs as [|doc docs IH]; intros results s results' s1 Hnd; simpl; [tauto|].
  unfold bind. destruct (addDocument doc s) as [[result|e] s0] eqn:E; [|discriminate].
  intros H x Hx. inversion_clear Hnd as [|? ? Hfresh Hnd'].
  destruct Hx as [<-|Hx]; [|eapply IH; eassumption].
  rewrite (addDocumentsLoop_get_other _ _ _ _ _ _ Hfresh H).
  destruct (addDocument_returns _ _ _ _ E) as (emb & Hresult & Hdocs).
  exists emb. unfold getDocument. rewrite Hdocs, JsMapFacts.get_set_same.
  rewrite Hresult. reflexivity.
Qed.

(** C8. [addDocuments] handles its entries in input order, each through
    [addDocument]: when the entries before [doc] are added and [addDocument
    doc] then throws, the batch throws that same error at [doc], sends no
    request for a later entry, and leaves every earlier entry resident. *)
Theorem addDocuments_aborts_at_first_failure pre doc post s results s1 e s2 :
  addDocuments pre s = (Ok results, s1) ->
  addDocument doc s1 = (Err e, s2) ->
  addDocuments (pre ++ doc :: post) s = (Err e, s2) /\
  documents s2 = documents s1 /\
  requests s2 = (requests s1 ++ [mkRequest (embeddingModel s1) (input_content doc)])%list /\
  (forall x, In x pre -> JsMap.has (input_id x) (documents s2) = true) /\
  (NoDup (map input_id pre) ->
   forall x, In x pre ->
     exists emb, getDocument (input_id x) s2
                 = Some (mkDocument (input_id x) (input_content x)
                                    (input_metadata x) (Some emb))).
Proof.
  unfold addDocuments. intros Hpre Hdoc.
  destruct (addDocument_throws _ _ _ _ Hdoc) as [Hs2 _].
  assert (Hdocs : documents s2 = documents s1) by (rewrite Hs2; reflexivity).
  split; [|split; [exact Hdocs|split; [rewrite Hs2; reflexivity|split]]].
  - rewrite addDocumentsLoop_app, Hpre. simpl. unfold bind. rewrite Hdoc. reflexivity.
  - intros x Hx. rewrite Hdocs.
    apply (addDocumentsLoop_has _ _ _ _ _ _ Hpre). right. apply in_map, Hx.
  - intros Hnd x Hx.
    destruct (addDocumentsLoop_committed _ _ _ _ _ Hnd Hpre x Hx) as (emb & Hget).
    exists emb. unfold getDocument in *. rewrite Hdocs. exact Hget.
Qed.

Lemma addDocuments_aborts_at_first_failure_witness :
  fst (addDocuments [mkDocumentInput "a" "first" None;
                     mkDocumentInput "b" "second" None;
                     mkDocumentInput "c" "bad" None;
                     mkDocumentInput "d" "fourth" None]
                    (emptyCompass (failingOn "bad" [1; 0])))
    = Err (EmbeddingGenerationFailed "Failed to generate embedding: quota exceeded") /\
  JsMap.keys (documents (snd (addDocuments [mkDocumentInput "a" "first" None;
                                            mkDocumentInput "b" "second" None;
                                            mkDocumentInput "c" "bad" None;
                                            mkDocumentInput "d" "fourth" None]
                                           (emptyCompass (failingOn "bad" [1; 0])))))
    = ["a"; "b"].
Proof.
  destruct (addDocuments_aborts_at_first_failure
              [mkDocumentInput "a" "first" None; mkDocumentInput "b" "second" None]
              (mkDocumentInput "c" "bad" None)
              [mkDocumentInput "d" "fourth" None]
              (emptyCompass (failingOn "bad" [1; 0]))
              _ _ _ _ eq_refl eq_refl) as (Hbatch & _).
  simpl app in Hbatch. rewrite Hbatch. split; reflexivity.
Defined.

(** ** Sorting and slicing *)

Section Sorting.
Context {A : Type} (compareFn : A -> A -> R).

Lemma insertSorted_perm x l : Permutation (insertSorted compareFn x l) (x :: l).
Proof.
  induction l as [|y l IH]; simpl; [apply Permutation_refl|].
  destruct (Rle_dec (compareFn x y) 0); [apply Permutation_refl|].
  eapply Permutation_trans; [apply perm_skip, IH | apply perm_swap].
Qed.

Lemma sort_perm l : Permutation (sort compareFn l) l.
Proof.
  induction l as [|x l IH]; simpl; [constructor|].
  eapply Permutation_trans; [apply insertSorted_perm | apply perm_skip, IH].
Qed.

Lemma sort_In x l : In x (sort compareFn l) <-> In x l.
Proof.
  split; apply Permutation_in;
    [apply sort_perm | apply Permutation_sym, sort_perm].
Qed.
End Sorting.

Lemma insertSorted_descending r l :
  Sorted descending l -> Sorted descending (insertSorted byScoreDescending r l).
Proof.
  induction 1 as [|y l Hl IH Hy]; simpl; [repeat constructor|].
  unfold byScoreDescending at 1.
  destruct (Rle_dec (score y - score r) 0) as [Hle|Hgt].
  - constructor; [constructor; assumption|].
    constructor. unfold descending. lra.
  - constructor; [exact IH|].
    destruct l as [|z l]; simpl.
    + constructor. unfold descending. lra.
    + destruct (Rle_dec (byScoreDescending r z) 0).
      * constructor. unfold descending. lra.
      * constructor. inversion Hy. assumption.
Qed.

Lemma sort_descending l : Sorted descending (sort byScoreDescending l).
Proof.
  induction l as [|r l IH]; simpl; [constructor|].
  apply insertSorted_descending, IH.
Qed.

Lemma firstn_Sorted {A} (R : A -> A -> Prop) n :
  forall l, Sorted R l -> Sorted R (firstn n l).
Proof.
  induction n as [|n IH]; intros l Hl; simpl; [constructor|].
  destruct Hl as [|x l Hl Hx]; [constructor|].
  constructor; [apply IH, Hl|].
  destruct Hx as [|y l Hxy]; [destruct n; constructor|].
  destruct n; simpl; constructor. assumption.
Qed.

Lemma firstn_In {A} n : forall (l : list A) x, In x (firstn n l) -> In x l.
Proof.
  induction n as [|n IH]; intros [|y l] x; simpl; try tauto.
  intros [H|H]; [left; assumption | right; apply IH, H].
Qed.

Lemma slice0_In {A} (l : list A) k x : In x (slice0 l k) -> In x l.
Proof. apply firstn_In. Qed.

Lemma slice0_Sorted {A} (R : A -> A -> Prop) (l : list A) k :
  Sorted R l -> Sorted R (slice0 l k).
Proof. apply firstn_Sorted. Qed.

Lemma slice0_length {A} (l : list A) k :
  (0 <= k)%Z -> (Z.of_nat (List.length (slice0 l k)) <= k)%Z.
Proof.
  intros Hk. unfold slice0.
  destruct (Z.ltb_spec k 0); [lia|].
  rewrite length_firstn. lia.
Qed.

(** A negative end index counts from the end of the array, so the bound of
    [slice0_length] needs its hypothesis. *)
Example slice0_negative_end : slice0 ["a"; "b"; "c"] (-1) = ["a"; "b"].
Proof. reflexivity. Qed.

(** ** What a search returns *)

Lemma scanDocuments_returns q t f docs :
  forall results s rs s',
    scanDocuments q t f docs results s = (Ok rs, s') ->
    exists kept,
      rs = (results ++ kept)%list /\
      forall r, In r kept <->
                scored f q docs (document r) (score r) /\ score r >= t.
Proof.
  unfold scored.
  induction docs as [|doc rest IH]; intros results s rs s'; simpl.
  - intros H. injection H as <- _. exists []. rewrite app_nil_r.
    split; [reflexivity|]. simpl. tauto.
  - destruct (rejectedBy f doc) eqn:Ef.
    { intros H. destruct (IH _ _ _ _ H) as (kept & -> & Hkept).
      exists kept. split; [reflexivity|]. intros r. rewrite Hkept.
      split; [tauto|]. intros [[[<-|Hin] [Hrej Hemb]] Hsc]; [congruence|tauto]. }
    destruct (embedding doc) as [e|] eqn:Ee.
    2:{ unfold bind, modify. intros H.
        destruct (IH _ _ _ _ H) as (kept & -> & Hkept).
        exists kept. split; [reflexivity|]. intros r. rewrite Hkept.
        split; [tauto|].
        intros [[[<-|Hin] [Hrej (e' & He' & Hcos)]] Hsc]; [congruence|].
        eauto 6. }
    destruct (cosineSimilarity q e) as [sc|err] eqn:Ec; [|discriminate].
    destruct (Rge_dec sc t) as [Hge|Hlt]; intros H;
      destruct (IH _ _ _ _ H) as (kept & -> & Hkept).
    + exists (mkSearchResult doc sc :: kept). rewrite <- app_assoc.
      split; [reflexivity|]. intros r. simpl. rewrite Hkept. split.
      * intros [<-|[[Hin Hrest] Hsc]]; simpl; [|tauto].
        repeat split; try tauto. exists e. tauto.
      * intros [[[Hd|Hin] [Hrej (e' & He' & Hcos)]] Hsc]; [left|right; eauto 6].
        destruct r as [rdoc rsc]; simpl in *. subst rdoc. f_equal. congruence.
    + exists kept. split; [reflexivity|]. intros r. rewrite Hkept.
      split; [tauto|].
      intros [[[Hd|Hin] [Hrej (e' & He' & Hcos)]] Hsc]; [|eauto 6].
      exfalso. apply Hlt. rewrite <- Hd in He'. congruence.
Qed.

Lemma ranking_nil k t f q : ranking k t f q [] [].
Proof.
  exists []. split; [symmetry; apply firstn_nil|].
  intros r. unfold scored. simpl. tauto.
Qed.

Lemma similaritySearchByVector_returns e o s rs s' :
  similaritySearchByVector e o s = (Ok rs, s') ->
  ranking (topKOf o) (thresholdOf o) (filter o) e (getAllDocuments s) rs.
Proof.
  unfold similaritySearchByVector, bind, gets, ret, throw.
  destruct (Nat.eqb (size s) 0) eqn:En.
  { intros H. injection H as <- _.
    apply Nat.eqb_eq in En. unfold size, JsMap.size in En.
    unfold getAllDocuments. destruct (documents s); [apply ranking_nil|discriminate]. }
  destruct (negb _); [discriminate|].
  destruct (scanDocuments _ _ _ _ _ s) as [[results|err] s1] eqn:Es; [|discriminate].
  intros H. injection H as <- _.
  destruct (scanDocuments_returns _ _ _ _ _ _ _ _ Es) as (kept & -> & Hkept).
  exists kept. split; [reflexivity|assumption].
Qed.

Lemma similaritySearch_returns q o s rs s' :
  similaritySearch q o s = (Ok rs, s') ->
  exists queryEmbedding,
    (size s <> 0%nat -> answered s q queryEmbedding) /\
    ranking (topKOf o) (thresholdOf o) (filter o) queryEmbedding (getAllDocuments s) rs.
Proof.
  unfold similaritySearch, bind, gets, ret, generateEmbedding, answered.
  destruct (Nat.eqb (size s) 0) eqn:En.
  { intros H. injection H as <- _. exists [].
    apply Nat.eqb_eq in En. split; [congruence|].
    unfold size, JsMap.size in En.
    unfold getAllDocuments. destruct (documents s); [apply ranking_nil|discriminate]. }
  destruct (openai s (requests s) _) as [msg|qe] eqn:Eq; [discriminate|].
  match goal with
  | |- context [scanDocuments ?a ?b ?c ?d ?e ?f] =>
      destruct (scanDocuments a b c d e f) as [[results|err] s1] eqn:Es; [|discriminate]
  end.
  intros H. injection H as <- _.
  destruct (scanDocuments_returns _ _ _ _ _ _ _ _ Es) as (kept & -> & Hkept).
  exists qe. split; [reflexivity|].
  exists kept. split; [reflexivity|assumption].
Qed.

Lemma ranking_threshold k t f q docs rs :
  ranking k t f q docs rs -> Forall (fun r => score r >= t) rs.
Proof.
  intros (candidates & -> & Hc). apply Forall_forall. intros r Hr.
  apply slice0_In, sort_In, Hc in Hr. tauto.
Qed.

Lemma ranking_descending k t f q docs rs :
  ranking k t f q docs rs -> Sorted descending rs.
Proof.
  intros (candidates & -> & _). apply slice0_Sorted, sort_descending.
Qed.

Lemma ranking_length k t f q docs rs :
  (0 <= k)%Z -> ranking k t f q docs rs -> (Z.of_nat (List.length rs) <= k)%Z.
Proof.
  intros Hk (candidates & -> & _). apply slice0_length, Hk.
Qed.

(** ** The compass store, searched towards the east *)

Lemma magnitude_unit (x y : R) :
  x * x + (y * y + 0) = 1 -> magnitude [x; y] = 1.
Proof.
  intros H. unfold magnitude. simpl. rewrite H. apply sqrt_1.
Qed.

Lemma cosineSimilarity_units (a1 a2 b1 b2 : R) :
  a1 * a1 + (a2 * a2 + 0) = 1 ->
  b1 * b1 + (b2 * b2 + 0) = 1 ->
  cosineSimilarity [a1; a2] [b1; b2] = Ok (a1 * b1 + a2 * b2).
Proof.
  intros Ha Hb. rewrite cosineSimilarity_eq by reflexivity.
  rewrite (magnitude_unit _ _ Ha), (magnitude_unit _ _ Hb).
  repeat decide_real. f_equal. simpl. field.
Qed.

Lemma cosineSimilarity_east_east : cosineSimilarity [1; 0] [1; 0] = Ok 1.
Proof.
  rewrite cosineSimilarity_units by lra. f_equal. lra.
Qed.

Lemma cosineSimilarity_east_north : cosineSimilarity [1; 0] [0; 1] = Ok 0.
Proof.
  rewrite cosineSimilarity_units by lra. f_equal. lra.
Qed.

Lemma cosineSimilarity_east_west : cosineSimilarity [1; 0] [-1; 0] = Ok (-1).
Proof.
  rewrite cosineSimilarity_units by lra. f_equal. lra.
Qed.

Lemma scanDocuments_compass threshold s :
  threshold <= 0 -> -1 < threshold ->
  scanDocuments [1; 0] threshold None [east; north; west] [] s
  = (Ok [mkSearchResult east 1; mkSearchResult north 0], s).
Proof.
  intros Hle Hgt. unfold scanDocuments, rejectedBy, east, north, west, embedding.
  rewrite cosineSimilarity_east_east, cosineSimilarity_east_north,
    cosineSimilarity_east_west.
  repeat decide_real. reflexivity.
Qed.

Lemma sort_compass :
  sort byScoreDescending [mkSearchResult east 1; mkSearchResult north 0]
  = [mkSearchResult east 1; mkSearchResult north 0].
Proof.
  unfold sort, fold_right, insertSorted, byScoreDescending, score.
  decide_real. reflexivity.
Qed.

(** Past their guards, both methods are the scan, the sort and the cut. *)
Lemma similaritySearchByVector_scans e o s :
  size s <> 0%nat ->
  Z.of_nat (List.length e) = dimension s ->
  similaritySearchByVector e o s
  = match scanDocuments e (thresholdOf o) (filter o) (getAllDocuments s) [] s with
    | (Ok results, s') => (Ok (slice0 (sort byScoreDescending results) (topKOf o)), s')
    | (Err err, s') => (Err err, s')
    end.
Proof.
  intros Hsize Hdim. unfold similaritySearchByVector, bind, gets, ret.
  apply Nat.eqb_neq in Hsize. rewrite Hsize.
  apply Z.eqb_eq in Hdim. rewrite Hdim. reflexivity.
Qed.

Lemma similaritySearch_scans q o s e :
  size s <> 0%nat ->
  answered s q e ->
  similaritySearch q o s
  = match scanDocuments e (thresholdOf o) (filter o) (getAllDocuments s) []
                        (withRequest (mkRequest (embeddingModel s) q) s) with
    | (Ok results, s') => (Ok (slice0 (sort byScoreDescending results) (topKOf o)), s')
    | (Err err, s') => (Err err, s')
    end.
Proof.
  intros Hsize He. unfold similaritySearch, bind, gets, ret, generateEmbedding.
  apply Nat.eqb_neq in Hsize. rewrite Hsize.
  unfold answered in He. rewrite He. reflexivity.
Qed.

Lemma similaritySearchByVector_compass o options :
  filter options = None ->
  -1 < thresholdOf options <= 0 ->
  similaritySearchByVector [1; 0] options (compass o)
  = (Ok (slice0 [mkSearchResult east 1; mkSearchResult north 0] (topKOf options)),
     compass o).
Proof.
  intros Hf Ht.
  rewrite similaritySearchByVector_scans by (simpl; (discriminate || reflexivity)).
  change (getAllDocuments (compass o)) with [east; north; west].
  rewrite Hf, scanDocuments_compass by lra.
  rewrite sort_compass. reflexivity.
Qed.

Lemma similaritySearch_compass options :
  filter options = None ->
  -1 < thresholdOf options <= 0 ->
  similaritySearch "eastwards" options (compass (answering [1; 0]))
  = (Ok (slice0 [mkSearchResult east 1; mkSearchResult north 0] (topKOf options)),
     withRequest (mkRequest "text-embedding-3-small" "eastwards")
                 (compass (answering [1; 0]))).
Proof.
  intros Hf Ht.
  rewrite (similaritySearch_scans _ _ _ [1; 0])
    by (simpl; (discriminate || reflexivity)).
  change (getAllDocuments (compass (answering [1; 0]))) with [east; north; west].
  rewrite Hf, scanDocuments_compass by lra.
  rewrite sort_compass. reflexivity.
Qed.

Lemma thresholdOf_in_range (k : option Z) (t : R) f :
  -1 < t <= 0 -> -1 < thresholdOf (mkOptions k (Some t) f) <= 0.
Proof. intros H. exact H. Qed.

Lemma thresholdOf_default (k : option Z) f :
  -1 < thresholdOf (mkOptions k None f) <= 0.
Proof. unfold thresholdOf. simpl. lra. Qed.

(** ** Ranking, threshold and the default threshold *)

(** C5. The results of either search are in non-increasing order of score,
    and there are at most [topK] of them ([topK] is 5 when the option is
    omitted). [topK] is a maximum number of results, so not negative. *)
Theorem search_results_ranked query e options s :
  (0 <= topKOf options)%Z ->
  (forall rs s',
     similaritySearch query options s = (Ok rs, s') ->
     Sorted descending rs /\ (Z.of_nat (List.length rs) <= topKOf options)%Z) /\
  (forall rs s',
     similaritySearchByVector e options s = (Ok rs, s') ->
     Sorted descending rs /\ (Z.of_nat (List.length rs) <= topKOf options)%Z).
Proof.
  intros Hk. split; intros rs s' H.
  - destruct (similaritySearch_returns _ _ _ _ _ H) as (qe & _ & Hr).
    split; [eapply ranking_descending | eapply ranking_length]; eauto.
  - apply similaritySearchByVector_returns in H.
    split; [eapply ranking_descending | eapply ranking_length]; eauto.
Qed.

Lemma search_results_ranked_witness :
  (Sorted descending [mkSearchResult east 1; mkSearchResult north 0] /\
   (Z.of_nat (List.length [mkSearchResult east 1; mkSearchResult north 0]) <= 5)%Z) /\
  (Sorted descending [mkSearchResult east 1] /\
   (Z.of_nat (List.length [mkSearchResult east 1]) <= 1)%Z).
Proof.
  split.
  - destruct (search_results_ranked "eastwards" [1; 0] defaultOptions
                (compass (answering [1; 0])) ltac:(unfold topKOf; simpl; lia)) as [Htext _].
    apply (Htext _ _ (similaritySearch_compass defaultOptions eq_refl
                        (thresholdOf_default None None))).
  - destruct (search_results_ranked "eastwards" [1; 0]
                (mkOptions (Some 1%Z) None None)
                (compass (answering [1; 0])) ltac:(unfold topKOf; simpl; lia)) as [_ Hvector].
    apply (Hvector _ _ (similaritySearchByVector_compass _
                          (mkOptions (Some 1%Z) None None) eq_refl
                          (thresholdOf_default _ None))).
Defined.

(** C6. Every result of either search has a score of at least the
    threshold the search was called with (0 when the option is omitted). *)
Theorem search_results_meet_threshold query e options s :
  (forall rs s',
     similaritySearch query options s = (Ok rs, s') ->
     Forall (fun r => score r >= thresholdOf options) rs) /\
  (forall rs s',
     similaritySearchByVector e options s = (Ok rs, s') ->
     Forall (fun r => score r >= thresholdOf options) rs).
Proof.
  split; intros rs s' H.
  - destruct (similaritySearch_returns _ _ _ _ _ H) as (qe & _ & Hr).
    eapply ranking_threshold, Hr.
  - apply similaritySearchByVector_returns in H.
    eapply ranking_threshold, H.
Qed.

Lemma search_results_meet_threshold_witness :
  Forall (fun r => score r >= -1 / 2) [mkSearchResult east 1; mkSearchResult north 0] /\
  Forall (fun r => score r >= 0) [mkSearchResult east 1; mkSearchResult north 0].
Proof.
  split.
  - destruct (search_results_meet_threshold "eastwards" [1; 0]
                (mkOptions None (Some (-1 / 2)) None)
                (compass (answering [1; 0]))) as [Htext _].
    apply (Htext _ _ (similaritySearch_compass
                        (mkOptions None (Some (-1 / 2)) None) eq_refl
                        (thresholdOf_in_range None (-1 / 2) None ltac:(lra)))).
  - destruct (search_results_meet_threshold "eastwards" [1; 0] defaultOptions
                (compass (answering [1; 0]))) as [_ Hvector].
    apply (Hvector _ _ (similaritySearchByVector_compass _ defaultOptions eq_refl
                          (thresholdOf_default None None))).
Defined.

(** C3 as stated fails: with the threshold omitted, [west] passes the
    (absent) filter, has an embedding and scores -1 against the query, and
    neither search retains it, although fewer than [topK] results are
    returned. *)
Lemma default_threshold_drops_negative_scores :
  threshold defaultOptions = None /\
  scored (filter defaultOptions) [1; 0]
         (getAllDocuments (compass (answering [1; 0]))) west (-1) /\
  similaritySearchByVector [1; 0] defaultOptions (compass (answering [1; 0]))
    = (Ok [mkSearchResult east 1; mkSearchResult north 0],
       compass (answering [1; 0])) /\
  fst (similaritySearch "eastwards" defaultOptions (compass (answering [1; 0])))
    = Ok [mkSearchResult east 1; mkSearchResult north 0].
Proof.
  split; [reflexivity|]. split; [|split].
  - split; [simpl; tauto|]. split; [reflexivity|].
    exists [-1; 0]. split; [reflexivity | apply cosineSimilarity_east_west].
  - apply (similaritySearchByVector_compass _ defaultOptions eq_refl
             (thresholdOf_default None None)).
  - rewrite (similaritySearch_compass defaultOptions eq_refl
               (thresholdOf_default None None)).
    reflexivity.
Qed.

(** C3, as the code has it. With the threshold omitted, 0 is the minimum
    score: the candidates of either search, before sorting and cutting at
    [topK], are the resident documents that pass the filter and have an
    embedding, and such a document is a candidate exactly when its score is
    at least 0. *)
Theorem default_threshold_is_zero query e options s :
  threshold options = None ->
  (forall rs s',
     similaritySearchByVector e options s = (Ok rs, s') ->
     exists candidates,
       rs = slice0 (sort byScoreDescending candidates) (topKOf options) /\
       forall doc sc,
         scored (filter options) e (getAllDocuments s) doc sc ->
         (In (mkSearchResult doc sc) candidates <-> sc >= 0)) /\
  (forall rs s',
     similaritySearch query options s = (Ok rs, s') ->
     exists queryEmbedding candidates,
       (size s <> 0%nat -> answered s query queryEmbedding) /\
       rs = slice0 (sort byScoreDescending candidates) (topKOf options) /\
       forall doc sc,
         scored (filter options) queryEmbedding (getAllDocuments s) doc sc ->
         (In (mkSearchResult doc sc) candidates <-> sc >= 0)).
Proof.
  intros Ht.
  assert (H0 : thresholdOf options = 0) by (unfold thresholdOf; rewrite Ht; reflexivity).
  split; intros rs s' H.
  - apply similaritySearchByVector_returns in H.
    destruct H as (candidates & Hrs & Hc). rewrite H0 in Hc.
    exists candidates. split; [assumption|].
    intros doc sc Hscored. rewrite (Hc (mkSearchResult doc sc)). simpl. tauto.
  - destruct (similaritySearch_returns _ _ _ _ _ H) as (qe & Hqe & candidates & Hrs & Hc).
    rewrite H0 in Hc.
    exists qe, candidates. split; [assumption|]. split; [assumption|].
    intros doc sc Hscored. rewrite (Hc (mkSearchResult doc sc)). simpl. tauto.
Qed.

Lemma default_threshold_is_zero_witness :
  exists candidates,
    [mkSearchResult east 1; mkSearchResult north 0]
    = slice0 (sort byScoreDescending candidates) 5 /\
    forall doc sc,
      scored None [1; 0] [east; north; west] doc sc ->
      (In (mkSearchResult doc sc) candidates <-> sc >= 0).
Proof.
  destruct (default_threshold_is_zero "eastwards" [1; 0] defaultOptions
              (compass (answering [1; 0])) eq_refl) as [Hvector _].
  apply (Hvector _ _ (similaritySearchByVector_compass _ defaultOptions eq_refl
                        (thresholdOf_default None None))).
Defined.

(** * Further properties of the store *)

(** ** More on the map *)

Module JsMapMore.
Section WithValue.
Context {V : Type}.
Implicit Types (m : JsMap.t V) (k : string) (v : V).

Lemma size_set m k v :
  JsMap.size (JsMap.set k v m)
  = if JsMap.has k m then JsMap.size m else S (JsMap.size m).
Proof.
  unfold JsMap.size.
  rewrite <- (length_map fst (JsMap.set k v m)), <- (length_map fst m).
  change (map fst (JsMap.set k v m)) with (JsMap.keys (JsMap.set k v m)).
  change (map fst m) with (JsMap.keys m).
  rewrite JsMapFacts.keys_set.
  destruct (JsMap.has k m); [reflexivity|].
  rewrite length_app. simpl. lia.
Qed.

Lemma get_None_iff m k : JsMap.get k m = None <-> ~ In k (JsMap.keys m).
Proof.
  rewrite <- JsMapFacts.has_true_iff. unfold JsMap.has.
  destruct (JsMap.get k m); split; try congruence; intros H; exfalso; auto.
Qed.

Lemma delete_absent m k : JsMap.has k m = false -> JsMap.delete k m = m.
Proof.
  unfold JsMap.has.
  induction m as [|[k' v'] m IH]; simpl; [reflexivity|].
  destruct (String.eqb k k'); [discriminate|].
  intros H. rewrite IH by assumption. reflexivity.
Qed.

Lemma size_delete m k :
  JsMap.has k m = true -> S (JsMap.size (JsMap.delete k m)) = JsMap.size m.
Proof.
  unfold JsMap.has, JsMap.size.
  induction m as [|[k' v'] m IH]; simpl; [discriminate|].
  destruct (String.eqb k k'); [reflexivity|].
  intros H. simpl. rewrite IH by assumption. reflexivity.
Qed.

Lemma get_delete_other m k k' :
  k' <> k -> JsMap.get k' (JsMap.delete k m) = JsMap.get k' m.
Proof.
  intros Hne.
  induction m as [|[k0 v0] m IH]; simpl; [reflexivity|].
  destruct (String.eqb k k0) eqn:E; simpl.
  - apply String.eqb_eq in E. subst k0.
    apply String.eqb_neq in Hne. rewrite Hne. reflexivity.
  - rewrite IH. reflexivity.
Qed.

Lemma get_delete_same m k :
  NoDup (JsMap.keys m) -> JsMap.get k (JsMap.delete k m) = None.
Proof.
  induction m as [|[k0 v0] m IH]; simpl; intros Hnd; [reflexivity|].
  inversion_clear Hnd as [|? ? Hfresh Hnd'].
  destruct (String.eqb k k0) eqn:E; simpl.
  - apply String.eqb_eq in E. subst k0. apply get_None_iff, Hfresh.
  - rewrite E. apply IH, Hnd'.
Qed.

Lemma get_In m k v : JsMap.get k m = Some v -> In (k, v) m.
Proof.
  induction m as [|[k0 v0] m IH]; simpl; [discriminate|].
  destruct (String.eqb k k0) eqn:E.
  - apply String.eqb_eq in E. intros H. injection H as <-. subst. tauto.
  - auto.
Qed.

Lemma In_get m k v : NoDup (JsMap.keys m) -> In (k, v) m -> JsMap.get k m = Some v.
Proof.
  induction m as [|[k0 v0] m IH]; simpl; intros Hnd; [tauto|].
  inversion_clear Hnd as [|? ? Hfresh Hnd'].
  intros [H|H].
  - injection H as -> ->. rewrite String.eqb_refl. reflexivity.
  - destruct (String.eqb k k0) eqn:E; [|auto].
    apply String.eqb_eq in E. subst k0. exfalso. apply Hfresh.
    change k with (fst (k, v)). apply in_map, H.
Qed.

End WithValue.
End JsMapMore.

(** ** Construction *)

Lemma reachable_keeps_invariant s :
  reachable s -> invariant (fun _ => True) (dimension s) s.
Proof.
  intros (env & config & s0 & calls & Hc & ->).
  pose proof (reachable_invariant env config s0 calls Hc) as H.
  destruct H as (Hd & H). rewrite Hd. split; [assumption|exact H].
Qed.

Lemma reachable_afterCall c s : reachable s -> reachable (afterCall c s).
Proof.
  intros (env & config & s0 & calls & Hc & ->).
  exists env, config, s0, (calls ++ [c])%list. split; [assumption|].
  unfold afterCalls. rewrite fold_left_app. reflexivity.
Qed.

(** X1. The constructor throws exactly when neither the configuration nor
    the environment gives a non-empty API key, and then with the key error;
    otherwise the client is built from the configuration's key if it has
    one, else from the environment's. *)
Theorem constructor_api_key env config :
  match constructor env config with
  | Err e =>
      e = ApiKeyRequired /\ falsy (apiKey config) /\ falsy (OPENAI_API_KEY env)
  | Ok s =>
      exists key,
        key <> "" /\ openai s = client env key /\
        (apiKey config = Some key \/
         (falsy (apiKey config) /\ OPENAI_API_KEY env = Some key))
  end.
Proof.
  unfold constructor, orString, falsy.
  destruct (apiKey config) as [[|c k]|]; destruct (OPENAI_API_KEY env) as [[|c' k']|];
    simpl; try (split; [reflexivity|]; split; auto; fail);
    (eexists; (split; [|split; [reflexivity|]]); [discriminate | auto]).
Qed.

(** X2. A constructed store holds no document and has sent no request. Its
    dimension is the configured one, except that an omitted or zero
    dimension becomes 1536, so it is never 0; its model is the configured
    one, except that an omitted or empty name becomes
    text-embedding-3-small. *)
Theorem constructor_defaults env config s :
  constructor env config = Ok s ->
  size s = 0%nat /\ requests s = [] /\ warnings s = [] /\
  dimension s <> 0%Z /\
  dimension s = match config_dimension config with
                | Some d => if Z.eqb d 0 then 1536%Z else d
                | None => 1536%Z
                end /\
  embeddingModel s <> "" /\
  embeddingModel s = match config_embeddingModel config with
                     | Some m => if String.eqb m "" then "text-embedding-3-small" else m
                     | None => "text-embedding-3-small"
                     end.
Proof.
  unfold constructor. intros H.
  destruct (orString (apiKey config) _) as [[|c key]|]; try discriminate.
  injection H as <-. simpl.
  repeat split.
  - destruct (config_dimension config) as [[| |]|]; discriminate.
  - destruct (config_dimension config) as [[| |]|]; reflexivity.
  - destruct (config_embeddingModel config) as [[|]|]; discriminate.
  - destruct (config_embeddingModel config) as [[|]|]; reflexivity.
Qed.

Lemma constructor_defaults_witness :
  dimension (emptyCompass (answering [1; 0])) = 2%Z /\
  embeddingModel (emptyCompass (answering [1; 0])) = "text-embedding-3-small".
Proof.
  destruct (constructor_defaults (testEnvironment (answering [1; 0])) planar
              (emptyCompass (answering [1; 0])) eq_refl)
    as (_ & _ & _ & _ & Hd & _ & Hm).
  split; [exact Hd | exact Hm].
Defined.

(** ** Adding, replacing and deleting *)

Lemma addDocument_cases doc s :
  let request := mkRequest (embeddingModel s) (input_content doc) in
  match openai s (requests s) request with
  | inl message =>
      addDocument doc s
      = (Err (EmbeddingGenerationFailed ("Failed to generate embedding: " ++ message)),
         withRequest request s)
  | inr e =>
      let full := mkDocument (input_id doc) (input_content doc)
                             (input_metadata doc) (Some e) in
      addDocument doc s
      = (Ok full,
         withDocuments (JsMap.set (input_id doc) full (documents s))
                       (withRequest request s))
  end.
Proof.
  unfold addDocument, bind, generateEmbedding, setDocument, modify, ret. simpl.
  destruct (openai s (requests s) _); reflexivity.
Qed.

Lemma addDocument_ok doc s result s1 :
  addDocument doc s = (Ok result, s1) ->
  exists e,
    answered s (input_content doc) e /\
    result = mkDocument (input_id doc) (input_content doc)
                        (input_metadata doc) (Some e) /\
    documents s1 = JsMap.set (input_id doc) result (documents s).
Proof.
  intros H. pose proof (addDocument_cases doc s) as Hc. simpl in Hc.
  unfold answered.
  destruct (openai s (requests s) _) as [msg|e]; rewrite Hc in H; [discriminate|].
  injection H as <- <-. exists e. repeat split.
Qed.

(** X3. When [addDocument] returns, the returned document is the input with
    the provider's answer as embedding, it is what [getDocument] now finds
    under the input's id, every other id still maps to what it did, and the
    size has grown by one exactly when the id was new. *)
Theorem addDocument_upserts doc s result s1 :
  addDocument doc s = (Ok result, s1) ->
  getDocument (input_id doc) s1 = Some result /\
  (exists e, answered s (input_content doc) e /\
             result = mkDocument (input_id doc) (input_content doc)
                                 (input_metadata doc) (Some e)) /\
  (forall k, k <> input_id doc -> getDocument k s1 = getDocument k s) /\
  size s1 = (if JsMap.has (input_id doc) (documents s) then size s else S (size s)).
Proof.
  intros H. destruct (addDocument_ok _ _ _ _ H) as (e & He & Hresult & Hdocs).
  unfold getDocument, size. rewrite Hdocs.
  split; [apply JsMapFacts.get_set_same|].
  split; [exists e; split; assumption|].
  split; [intros k Hk; apply JsMapFacts.get_set_other, Hk|].
  apply JsMapMore.size_set.
Qed.

Lemma addDocument_upserts_witness :
  getDocument "north" (snd (addDocument (mkDocumentInput "north" "again" None)
                                        (compass (answering [1; 0]))))
    = Some (mkDocument "north" "again" None (Some [1; 0])) /\
  size (snd (addDocument (mkDocumentInput "north" "again" None)
                         (compass (answering [1; 0])))) = 3%nat.
Proof.
  destruct (addDocument_upserts (mkDocumentInput "north" "again" None)
              (compass (answering [1; 0])) _ _ eq_refl) as (Hget & _ & _ & Hsize).
  split; [exact Hget | exact Hsize].
Defined.

(** X4. When [addDocument] throws, the provider rejected the request; the
    error carries the provider's message after the fixed prefix, and the
    store holds the same documents as before. *)
Theorem addDocument_failure doc s e s1 :
  addDocument doc s = (Err e, s1) ->
  (exists message,
     openai s (requests s) (mkRequest (embeddingModel s) (input_content doc))
       = inl message /\
     e = EmbeddingGenerationFailed ("Failed to generate embedding: " ++ message)) /\
  documents s1 = documents s /\
  (forall k, getDocument k s1 = getDocument k s) /\
  size s1 = size s.
Proof.
  intros H. pose proof (addDocument_cases doc s) as Hc. simpl in Hc.
  destruct (openai s (requests s) _) as [msg|emb]; rewrite Hc in H; [|discriminate].
  injection H as <- <-.
  split; [exists msg; split; reflexivity|]. repeat split.
Qed.

Lemma addDocument_failure_witness :
  fst (addDocument (mkDocumentInput "c" "bad" None) (compass (failingOn "bad" [1; 0])))
    = Err (EmbeddingGenerationFailed "Failed to generate embedding: quota exceeded") /\
  size (snd (addDocument (mkDocumentInput "c" "bad" None)
                         (compass (failingOn "bad" [1; 0])))) = 3%nat.
Proof.
  destruct (addDocument_failure (mkDocumentInput "c" "bad" None)
              (compass (failingOn "bad" [1; 0])) _ _ eq_refl)
    as ((message & Hrejected & _) & _ & _ & Hsize).
  split; [reflexivity | exact Hsize].
Defined.

(** X5. Adding a second document under the id of one just added replaces
    it: the size and the order of the ids stay as they were, and the id now
    maps to the second document. *)
Theorem addDocument_same_id_replaces first second s r1 s1 r2 s2 :
  input_id second = input_id first ->
  addDocument first s = (Ok r1, s1) ->
  addDocument second s1 = (Ok r2, s2) ->
  size s2 = size s1 /\
  JsMap.keys (documents s2) = JsMap.keys (documents s1) /\
  getDocument (input_id first) s2 = Some r2 /\
  content r2 = input_content second.
Proof.
  intros Hid H1 H2.
  destruct (addDocument_ok _ _ _ _ H1) as (e1 & _ & _ & Hdocs1).
  destruct (addDocument_ok _ _ _ _ H2) as (e2 & _ & Hr2 & Hdocs2).
  assert (Hhas : JsMap.has (input_id second) (documents s1) = true).
  { rewrite Hid, Hdocs1. unfold JsMap.has.
    rewrite JsMapFacts.get_set_same. reflexivity. }
  unfold size, getDocument. rewrite Hdocs2, <- Hid.
  split; [rewrite JsMapMore.size_set, Hhas; reflexivity|].
  split; [rewrite JsMapFacts.keys_set, Hhas; reflexivity|].
  split; [apply JsMapFacts.get_set_same | rewrite Hr2; reflexivity].
Qed.

Lemma addDocument_same_id_replaces_witness :
  size (snd (addDocuments [mkDocumentInput "doc1" "Original content" None;
                           mkDocumentInput "doc1" "Updated content" None]
                          (emptyCompass (answering [1; 0])))) = 1%nat.
Proof.
  destruct (addDocument_same_id_replaces
              (mkDocumentInput "doc1" "Original content" None)
              (mkDocumentInput "doc1" "Updated content" None)
              (emptyCompass (answering [1; 0])) _ _ _ _ eq_refl eq_refl eq_refl)
    as (Hsize & _).
  exact Hsize.
Defined.

(** X6. On a reachable store [deleteDocument] returns whether the id was
    present; afterwards the id is absent, every other id maps to what it
    did, and the size has dropped by one exactly when the id was present.
    Deleting an absent id leaves the store as it was. *)
Theorem deleteDocument_removes i s :
  reachable s ->
  fst (deleteDocument i s)
    = Ok (match getDocument i s with Some _ => true | None => false end) /\
  getDocument i (snd (deleteDocument i s)) = None /\
  (forall k, k <> i -> getDocument k (snd (deleteDocument i s)) = getDocument k s) /\
  size s = (match getDocument i s with
            | Some _ => S (size (snd (deleteDocument i s)))
            | None => size (snd (deleteDocument i s))
            end) /\
  (getDocument i s = None -> deleteDocument i s = (Ok false, s)).
Proof.
  intros Hr. apply reachable_keeps_invariant in Hr.
  destruct Hr as (_ & _ & Hnd & _).
  unfold deleteDocument, getDocument, size. simpl.
  split; [reflexivity|].
  split; [apply JsMapMore.get_delete_same, Hnd|].
  split; [intros k Hk; apply JsMapMore.get_delete_other, Hk|].
  split.
  - destruct (JsMap.get i (documents s)) eqn:E.
    + symmetry. apply JsMapMore.size_delete. unfold JsMap.has. rewrite E. reflexivity.
    + rewrite JsMapMore.delete_absent; [reflexivity|].
      unfold JsMap.has. rewrite E. reflexivity.
  - intros E. unfold JsMap.has. rewrite E.
    rewrite JsMapMore.delete_absent by (unfold JsMap.has; rewrite E; reflexivity).
    destruct s; reflexivity.
Qed.

Lemma compass_reachable o : reachable (compass o).
Proof.
  exists (testEnvironment o), planar, (emptyCompass o), [CallImport [east; north; west]].
  split; reflexivity.
Qed.

Lemma deleteDocument_removes_witness :
  fst (deleteDocument "north" (compass (answering [1; 0]))) = Ok true /\
  getDocument "north" (snd (deleteDocument "north" (compass (answering [1; 0])))) = None /\
  deleteDocument "south" (compass (answering [1; 0]))
    = (Ok false, compass (answering [1; 0])).
Proof.
  split; [|split].
  - apply (deleteDocument_removes "north" _ (compass_reachable (answering [1; 0]))).
  - apply (deleteDocument_removes "north" _ (compass_reachable (answering [1; 0]))).
  - apply (deleteDocument_removes "south" _ (compass_reachable (answering [1; 0]))).
    reflexivity.
Defined.

(** X7. After [clear] the store is empty: no id is found, the export is
    empty, and either search returns the empty array without a request to
    the provider and without looking at the query. *)
Theorem clear_empties query e options s :
  fst (clear s) = Ok tt /\
  size (snd (clear s)) = 0%nat /\
  export (snd (clear s)) = [] /\
  (forall i, getDocument i (snd (clear s)) = None) /\
  similaritySearch query options (snd (clear s)) = (Ok [], snd (clear s)) /\
  similaritySearchByVector e options (snd (clear s)) = (Ok [], snd (clear s)).
Proof.
  repeat split.
Qed.

(** ** Batches that succeed *)

Lemma addDocument_keeps_model doc s r s1 :
  addDocument doc s = (r, s1) ->
  embeddingModel s1 = embeddingModel s /\
  requests s1 = (requests s ++ [mkRequest (embeddingModel s) (input_content doc)])%list.
Proof.
  intros H. pose proof (addDocument_cases doc s) as Hc. simpl in Hc.
  destruct (openai s (requests s) _); rewrite Hc in H;
    injection H as <- <-; split; reflexivity.
Qed.

Lemma addDocumentsLoop_ok docs :
  forall acc s results s1,
    addDocumentsLoop docs acc s = (Ok results, s1) ->
    exists added,
      results = (acc ++ added)%list /\
      Forall2 (fun doc r =>
                 exists e, r = mkDocument (input_id doc) (input_content doc)
                                          (input_metadata doc) (Some e))
              docs added /\
      requests s1
      = (requests s
         ++ map (fun doc => mkRequest (embeddingModel s) (input_content doc)) docs)%list /\
      (size s <= size s1 <= size s + List.length docs)%nat.
Proof.
  induction docs as [|doc docs IH]; intros acc s results s1; simpl.
  - intros H. injection H as <- <-. exists [].
    rewrite !app_nil_r. repeat split; (constructor || lia).
  - unfold bind. destruct (addDocument doc s) as [[r|err] s0] eqn:E; [|discriminate].
    intros H. destruct (IH _ _ _ _ H) as (added & -> & Hadded & Hreq & Hsize).
    destruct (addDocument_ok _ _ _ _ E) as (e & _ & Hr & Hdocs).
    destruct (addDocument_keeps_model _ _ _ _ E) as (Hmodel & Hreq0).
    exists (r :: added). rewrite <- app_assoc.
    split; [reflexivity|]. split; [constructor; eauto|]. split.
    + rewrite Hreq, Hreq0, Hmodel, <- app_assoc. reflexivity.
    + assert (Hs0 : size s0 = if JsMap.has (input_id doc) (documents s)
                              then size s else S (size s)).
      { unfold size. rewrite Hdocs. apply JsMapMore.size_set. }
      destruct (JsMap.has _ _); lia.
Qed.

(** X8. When [addDocuments] returns, it returns one document per entry, in
    input order, each the entry with an embedding added; it has sent
    exactly one request per entry, in input order; and the store has grown
    by at most the number of entries. *)
Theorem addDocuments_returns docs s results s1 :
  addDocuments docs s = (Ok results, s1) ->
  Forall2 (fun doc r =>
             exists e, r = mkDocument (input_id doc) (input_content doc)
                                      (input_metadata doc) (Some e))
          docs results /\
  List.length results = List.length docs /\
  requests s1
  = (requests s
     ++ map (fun doc => mkRequest (embeddingModel s) (input_content doc)) docs)%list /\
  (size s <= size s1 <= size s + List.length docs)%nat.
Proof.
  intros H. destruct (addDocumentsLoop_ok _ _ _ _ _ H) as (added & -> & Hf & Hreq & Hsize).
  simpl. split; [assumption|]. split; [|split; assumption].
  symmetry. eapply Forall2_length, Hf.
Qed.

Lemma addDocuments_returns_witness :
  List.length (requests (snd (addDocuments [mkDocumentInput "doc1" "First" None;
                                            mkDocumentInput "doc2" "Second" None;
                                            mkDocumentInput "doc1" "Third" None]
                                           (emptyCompass (answering [1; 0]))))) = 3%nat /\
  size (snd (addDocuments [mkDocumentInput "doc1" "First" None;
                           mkDocumentInput "doc2" "Second" None;
                           mkDocumentInput "doc1" "Third" None]
                          (emptyCompass (answering [1; 0])))) = 2%nat.
Proof.
  destruct (addDocuments_returns
              [mkDocumentInput "doc1" "First" None;
               mkDocumentInput "doc2" "Second" None;
               mkDocumentInput "doc1" "Third" None]
              (emptyCompass (answering [1; 0])) _ _ eq_refl) as (_ & _ & Hreq & _).
  split; [exact (f_equal (@List.length _) Hreq) | reflexivity].
Defined.

(** ** Import *)

Lemma import_app pre :
  forall post s,
    import (pre ++ post) s
    = match import pre s with
      | (Ok _, s1) => import post s1
      | (Err e, s1) => (Err e, s1)
      end.
Proof.
  induction pre as [|doc pre IH]; intros post s; simpl; [reflexivity|].
  destruct (embedding doc); [|reflexivity].
  unfold bind, setDocument, modify. apply IH.
Qed.

Lemma import_ok docs :
  forall s,
    Forall (fun doc => embedding doc <> None) docs ->
    exists s1,
      import docs s = (Ok tt, s1) /\
      requests s1 = requests s /\ warnings s1 = warnings s /\
      (forall k, ~ In k (map id docs) -> getDocument k s1 = getDocument k s) /\
      (forall doc, In doc docs -> JsMap.has (id doc) (documents s1) = true) /\
      (forall k, JsMap.has k (documents s) = true -> JsMap.has k (documents s1) = true) /\
      (NoDup (map id docs) ->
       forall doc, In doc docs -> getDocument (id doc) s1 = Some doc).
Proof.
  induction docs as [|doc docs IH]; intros s Hall; simpl.
  - exists s. repeat split; auto; tauto.
  - inversion_clear Hall as [|? ? Hdoc Hdocs].
    destruct (embedding doc) eqn:E; [|congruence].
    unfold bind, setDocument, modify.
    destruct (IH (withDocuments (JsMap.set (id doc) doc (documents s)) s) Hdocs)
      as (s1 & Himport & Hreq & Hwarn & Hother & Hhas & Hmono & Hget).
    assert (Hset : JsMap.has (id doc) (documents s1) = true).
    { apply Hmono. simpl. unfold JsMap.has.
      rewrite JsMapFacts.get_set_same. reflexivity. }
    exists s1. split; [exact Himport|]. split; [exact Hreq|]. split; [exact Hwarn|].
    split; [|split; [|split]].
    + intros k Hk. rewrite Hother by tauto. unfold getDocument. simpl.
      apply JsMapFacts.get_set_other. intros ->. apply Hk. left. reflexivity.
    + intros d [<-|Hd]; [exact Hset | apply Hhas, Hd].
    + intros k Hk. apply Hmono. simpl. apply JsMapFacts.has_true_iff.
      apply JsMapFacts.has_true_iff in Hk. rewrite JsMapFacts.keys_set.
      destruct (JsMap.has (id doc) (documents s)); [exact Hk|].
      apply in_or_app. left. exact Hk.
    + intros Hnd d Hd. inversion_clear Hnd as [|? ? Hfresh Hnd'].
      destruct Hd as [<-|Hd]; [|apply Hget; assumption].
      rewrite Hother by assumption. unfold getDocument. simpl.
      apply JsMapFacts.get_set_same.
Qed.

(** X9. [import] stops at the first document without an embedding: it
    throws the missing-embedding error naming that document, the documents
    before it are imported as if they had been the whole list, and nothing
    after it is looked at. When the first document is the one without an
    embedding, the store is left as it was. *)
Theorem import_stops_at_missing_embedding pre bad post s :
  Forall (fun doc => embedding doc <> None) pre ->
  embedding bad = None ->
  import (pre ++ bad :: post) s
    = (Err (MissingEmbeddingForImport (id bad)), snd (import pre s)) /\
  fst (import pre s) = Ok tt /\
  import (bad :: post) s = (Err (MissingEmbeddingForImport (id bad)), s).
Proof.
  intros Hpre Hbad.
  destruct (import_ok pre s Hpre) as (s1 & Himport & _).
  rewrite import_app, Himport. simpl. rewrite Hbad. repeat split.
Qed.

Lemma import_stops_at_missing_embedding_witness :
  import [mkDocument "x" "c" None None] (compass (answering [1; 0]))
    = (Err (MissingEmbeddingForImport "x"), compass (answering [1; 0])) /\
  size (snd (import [spatial; mkDocument "y" "c" None None; east]
                    (emptyCompass (answering [1; 0])))) = 1%nat.
Proof.
  split.
  - apply (import_stops_at_missing_embedding [] (mkDocument "x" "c" None None) []
             (compass (answering [1; 0]))); [constructor | reflexivity].
  - destruct (import_stops_at_missing_embedding [spatial]
                (mkDocument "y" "c" None None) [east]
                (emptyCompass (answering [1; 0])))
      as (H & _); [repeat constructor; discriminate | reflexivity |].
    simpl app in H. rewrite H. reflexivity.
Defined.

(** X10. When every document of the list has an embedding, [import]
    returns, sends nothing to the provider and writes no warning; every
    imported id is present afterwards, ids outside the list map to what
    they did, and when the ids of the list are distinct each imported
    document is found under its id exactly as it was given. *)
Theorem import_stores_documents docs s :
  Forall (fun doc => embedding doc <> None) docs ->
  fst (import docs s) = Ok tt /\
  requests (snd (import docs s)) = requests s /\
  warnings (snd (import docs s)) = warnings s /\
  (forall k, ~ In k (map id docs) ->
     getDocument k (snd (import docs s)) = getDocument k s) /\
  (forall doc, In doc docs ->
     JsMap.has (id doc) (documents (snd (import docs s))) = true) /\
  (NoDup (map id docs) ->
   forall doc, In doc docs -> getDocument (id doc) (snd (import docs s)) = Some doc).
Proof.
  intros Hall.
  destruct (import_ok docs s Hall)
    as (s1 & Himport & Hreq & Hwarn & Hother & Hhas & _ & Hget).
  rewrite Himport. simpl. repeat split; assumption.
Qed.

Lemma import_stores_documents_witness :
  getDocument "x" (snd (import [spatial; east] (compass (answering [1; 0]))))
    = Some spatial /\
  getDocument "north" (snd (import [spatial; east] (compass (answering [1; 0]))))
    = Some north.
Proof.
  destruct (import_stores_documents [spatial; east] (compass (answering [1; 0])))
    as (_ & _ & _ & Hother & _ & Hget);
    [repeat constructor; discriminate|].
  split.
  - apply (Hget ltac:(repeat constructor; simpl; intuition discriminate) spatial).
    left. reflexivity.
  - rewrite (Hother "north"); [reflexivity|].
    simpl. intuition discriminate.
Defined.

(** ** Ids *)

(** X11. In a reachable store the ids of the resident documents are
    distinct, [size] counts the exported documents, and [getDocument]
    and [export] agree: a document is exported exactly when it is found
    under its own id, and whatever is found under an id carries that id. *)
Theorem reachable_ids_distinct s :
  reachable s ->
  NoDup (map id (export s)) /\
  List.length (export s) = size s /\
  (forall doc, In doc (export s) <-> getDocument (id doc) s = Some doc) /\
  (forall i doc, getDocument i s = Some doc -> id doc = i).
Proof.
  intros Hr. apply reachable_keeps_invariant in Hr.
  destruct Hr as (_ & _ & Hnd & Hk & _).
  unfold export, getAllDocuments, getDocument, size, JsMap.size, JsMap.values.
  unfold keyedById in Hk. rewrite Forall_forall in Hk.
  assert (Hids : map id (map snd (documents s)) = JsMap.keys (documents s)).
  { unfold JsMap.keys. rewrite map_map. apply map_ext_in.
    intros kv Hkv. symmetry. apply Hk, Hkv. }
  split; [rewrite Hids; exact Hnd|].
  split; [apply length_map|].
  split.
  - intros doc. split.
    + intros Hin. apply in_map_iff in Hin. destruct Hin as ([k v] & <- & Hkv).
      simpl. apply JsMapMore.In_get; [exact Hnd|].
      pose proof (Hk _ Hkv) as Hkey. simpl in Hkey. rewrite <- Hkey. exact Hkv.
    + intros Hget. apply JsMapMore.get_In in Hget.
      change doc with (snd (id doc, doc)). apply in_map, Hget.
  - intros i doc Hget. apply JsMapMore.get_In in Hget.
    symmetry. apply (Hk _ Hget).
Qed.

Lemma reachable_ids_distinct_witness :
  NoDup (map id (export (compass (answering [1; 0])))) /\
  List.length (export (compass (answering [1; 0]))) = 3%nat.
Proof.
  destruct (reachable_ids_distinct _ (compass_reachable (answering [1; 0])))
    as (Hnd & Hlen & _).
  split; [exact Hnd | exact Hlen].
Defined.

(** ** What a search leaves behind *)

Lemma scanDocuments_silent q t f docs :
  forall results s,
    Forall (fun doc => embedding doc <> None) docs ->
    snd (scanDocuments q t f docs results s) = s.
Proof.
  induction docs as [|doc rest IH]; intros results s Hall; simpl; [reflexivity|].
  inversion_clear Hall as [|? ? Hdoc Hrest].
  destruct (rejectedBy f doc); [apply IH, Hrest|].
  destruct (embedding doc) as [emb|]; [|congruence].
  destruct (cosineSimilarity q emb) as [sc|err]; [|reflexivity].
  destruct (Rge_dec sc t); apply IH, Hrest.
Qed.

Lemma reachable_embedded s :
  reachable s -> Forall (fun doc => embedding doc <> None) (getAllDocuments s).
Proof.
  intros Hr. apply reachable_keeps_invariant in Hr.
  destruct Hr as (_ & _ & _ & _ & Hemb).
  eapply Forall_impl; [|exact Hemb].
  intros doc (e & -> & _). discriminate.
Qed.

(** X12. A search never changes what a reachable store holds.
    [similaritySearchByVector] leaves the whole store as it was: it sends
    nothing to the provider and writes no warning. [similaritySearch]
    changes only the log of requests, by the one request for the query,
    and by nothing when the store is empty. *)
Theorem searches_leave_store e query options s :
  reachable s ->
  snd (similaritySearchByVector e options s) = s /\
  snd (similaritySearch query options s)
  = (if Nat.eqb (size s) 0 then s
     else withRequest (mkRequest (embeddingModel s) query) s).
Proof.
  intros Hr. pose proof (reachable_embedded s Hr) as Hemb. split.
  - unfold similaritySearchByVector, bind, gets, ret, throw.
    destruct (Nat.eqb (size s) 0); [reflexivity|].
    destruct (negb _); [reflexivity|].
    pose proof (scanDocuments_silent e (thresholdOf options) (filter options)
                  (getAllDocuments s) [] s Hemb) as Hs.
    destruct (scanDocuments _ _ _ _ _ s) as [[rs|err] s1]; exact Hs.
  - unfold similaritySearch, bind, gets, ret, generateEmbedding.
    destruct (Nat.eqb (size s) 0); [reflexivity|].
    destruct (openai s (requests s) _) as [msg|qe]; [reflexivity|].
    pose proof (scanDocuments_silent qe (thresholdOf options) (filter options)
                  (getAllDocuments s) []
                  (withRequest (mkRequest (embeddingModel s) query) s) Hemb) as Hs.
    change (getAllDocuments (withRequest (mkRequest (embeddingModel s) query) s))
      with (getAllDocuments s).
    destruct (scanDocuments _ _ _ _ _ _) as [[rs|err] s1]; exact Hs.
Qed.

Lemma searches_leave_store_witness :
  snd (similaritySearchByVector [1; 2; 3] defaultOptions (compass (answering [1; 0])))
    = compass (answering [1; 0]) /\
  documents (snd (similaritySearch "eastwards" defaultOptions
                                   (compass (answering [1; 0]))))
    = documents (compass (answering [1; 0])).
Proof.
  destruct (searches_leave_store [1; 2; 3] "eastwards" defaultOptions _
              (compass_reachable (answering [1; 0]))) as [Hvector Htext].
  split; [exact Hvector|]. rewrite Htext. reflexivity.
Defined.

(** X13. Every result of either search is a resident document that passes
    the filter and has an embedding, and its score is the cosine
    similarity of the query vector with that embedding. *)
Theorem search_results_are_scored query e options s :
  (forall rs s',
     similaritySearchByVector e options s = (Ok rs, s') ->
     Forall (fun r => scored (filter options) e (getAllDocuments s)
                             (document r) (score r)) rs) /\
  (forall rs s',
     similaritySearch query options s = (Ok rs, s') ->
     exists queryEmbedding,
       (size s <> 0%nat -> answered s query queryEmbedding) /\
       Forall (fun r => scored (filter options) queryEmbedding (getAllDocuments s)
                               (document r) (score r)) rs).
Proof.
  assert (Hranking : forall k t f q docs rs,
             ranking k t f q docs rs ->
             Forall (fun r => scored f q docs (document r) (score r)) rs).
  { intros k t f q docs rs (candidates & -> & Hc).
    apply Forall_forall. intros r Hr.
    apply slice0_In, sort_In, Hc in Hr. tauto. }
  split; intros rs s' H.
  - apply similaritySearchByVector_returns in H. eapply Hranking, H.
  - destruct (similaritySearch_returns _ _ _ _ _ H) as (qe & Hqe & Hr).
    exists qe. split; [assumption|]. eapply Hranking, Hr.
Qed.

Lemma search_results_are_scored_witness :
  Forall (fun r => scored None [1; 0] [east; north; west] (document r) (score r))
         [mkSearchResult east 1; mkSearchResult north 0].
Proof.
  destruct (search_results_are_scored "eastwards" [1; 0] defaultOptions
              (compass (answering [1; 0]))) as [Hvector _].
  apply (Hvector _ _ (similaritySearchByVector_compass _ defaultOptions eq_refl
                        (thresholdOf_default None None))).
Defined.

(** ** Which errors a search throws *)

Lemma cosineSimilarity_throws a b err :
  cosineSimilarity a b = Err err ->
  err = VectorsLengthMismatch /\ List.length a <> List.length b.
Proof.
  unfold cosineSimilarity.
  destruct (Nat.eqb (List.length a) (List.length b)) eqn:E; simpl.
  - destruct (cosineSums a b) as [[dp ma] mb].
    repeat destruct (Req_dec_T _ _); discriminate.
  - intros H. injection H as <-. apply Nat.eqb_neq in E. auto.
Qed.

Lemma scanDocuments_throws q t f docs :
  forall results s err s',
    scanDocuments q t f docs results s = (Err err, s') ->
    err = VectorsLengthMismatch /\
    exists doc emb,
      In doc docs /\ rejectedBy f doc = false /\ embedding doc = Some emb /\
      List.length emb <> List.length q.
Proof.
  induction docs as [|doc rest IH]; intros results s err s'; simpl; [discriminate|].
  assert (Hrest : forall results s,
             scanDocuments q t f rest results s = (Err err, s') ->
             err = VectorsLengthMismatch /\
             exists d emb,
               (doc = d \/ In d rest) /\ rejectedBy f d = false /\
               embedding d = Some emb /\ List.length emb <> List.length q).
  { intros results0 s0 H. destruct (IH _ _ _ _ H) as (-> & d & emb & Hin & Hd).
    split; [reflexivity|]. exists d, emb. tauto. }
  destruct (rejectedBy f doc) eqn:Ef; [apply Hrest|].
  destruct (embedding doc) as [emb|] eqn:Ee.
  - destruct (cosineSimilarity q emb) as [sc|e0] eqn:Ec.
    + destruct (Rge_dec sc t); apply Hrest.
    + intros H. injection H as <- _.
      destruct (cosineSimilarity_throws _ _ _ Ec) as [-> Hlen].
      split; [reflexivity|]. exists doc, emb. repeat split; auto.
  - unfold bind, modify. apply Hrest.
Qed.

Lemma scanDocuments_poisoned q t f docs :
  forall results s,
    (exists doc emb,
        In doc docs /\ rejectedBy f doc = false /\ embedding doc = Some emb /\
        List.length emb <> List.length q) ->
    fst (scanDocuments q t f docs results s) = Err VectorsLengthMismatch.
Proof.
  induction docs as [|doc rest IH]; intros results s (bad & emb & Hin & Hf & He & Hlen);
    simpl; [destruct Hin|].
  destruct (rejectedBy f doc) eqn:Ef.
  { destruct Hin as [->|Hin]; [congruence|]. apply IH. eauto 6. }
  destruct (embedding doc) as [emb'|] eqn:Ee.
  - destruct (cosineSimilarity q emb') as [sc|e0] eqn:Ec.
    + assert (Hrest : In bad rest).
      { destruct Hin as [->|Hin]; [|assumption]. exfalso.
        rewrite Ee in He. injection He as ->.
        rewrite cosineSimilarity_mismatch in Ec by auto. discriminate. }
      destruct (Rge_dec sc t); apply IH; eauto 6.
    + destruct (cosineSimilarity_throws _ _ _ Ec) as [-> _]. reflexivity.
  - unfold bind, modify.
    destruct Hin as [->|Hin]; [congruence|].
    specialize (IH results (withWarning
                   ("Document " ++ id doc ++ " has no embedding, skipping") s)).
    destruct (scanDocuments q t f rest results _) as [[rs|err] s1] eqn:E;
      simpl in *; apply IH; eauto 6.
Qed.

(** X14. One resident document whose embedding has another length than the
    query vector makes a search throw the length error of
    [cosineSimilarity], provided the document passes the filter:
    [similaritySearchByVector] when the query has the configured dimension,
    [similaritySearch] when the provider answers. Such a document can come
    from [import] or from the provider. *)
Theorem search_throws_on_resident_of_other_length query e options s doc emb :
  In doc (getAllDocuments s) ->
  rejectedBy (filter options) doc = false ->
  embedding doc = Some emb ->
  (Z.of_nat (List.length e) = dimension s ->
   List.length emb <> List.length e ->
   fst (similaritySearchByVector e options s) = Err VectorsLengthMismatch) /\
  (forall queryEmbedding,
     answered s query queryEmbedding ->
     List.length emb <> List.length queryEmbedding ->
     fst (similaritySearch query options s) = Err VectorsLengthMismatch).
Proof.
  intros Hin Hf He.
  assert (Hsize : size s <> 0%nat).
  { unfold size, JsMap.size. unfold getAllDocuments, JsMap.values in Hin.
    destruct (documents s); [destruct Hin | discriminate]. }
  split.
  - intros Hdim Hlen. rewrite similaritySearchByVector_scans by assumption.
    pose proof (scanDocuments_poisoned e (thresholdOf options) (filter options)
                  (getAllDocuments s) [] s) as Hp.
    destruct (scanDocuments _ _ _ _ _ s) as [[rs|err] s1]; simpl in *.
    + discriminate Hp. eauto 6.
    + rewrite Hp by eauto 6. reflexivity.
  - intros qe Hqe Hlen. rewrite (similaritySearch_scans _ _ _ qe) by assumption.
    pose proof (scanDocuments_poisoned qe (thresholdOf options) (filter options)
                  (getAllDocuments s) []
                  (withRequest (mkRequest (embeddingModel s) query) s)) as Hp.
    destruct (scanDocuments _ _ _ _ _ _) as [[rs|err] s1]; simpl in *.
    + discriminate Hp. eauto 6.
    + rewrite Hp by eauto 6. reflexivity.
Qed.

Lemma search_throws_on_resident_of_other_length_witness :
  fst (similaritySearchByVector [1; 0] defaultOptions
         (snd (import [spatial] (compass (answering [1; 0])))))
    = Err VectorsLengthMismatch /\
  fst (similaritySearch "eastwards" defaultOptions
         (snd (import [spatial] (compass (answering [1; 0])))))
    = Err VectorsLengthMismatch.
Proof.
  destruct (search_throws_on_resident_of_other_length "eastwards" [1; 0]
              defaultOptions (snd (import [spatial] (compass (answering [1; 0]))))
              spatial [1; 2; 3])
    as [Hvector Htext]; [simpl; tauto | reflexivity | reflexivity |].
  split.
  - apply Hvector; [reflexivity | simpl; discriminate].
  - apply (Htext [1; 0]); [reflexivity | simpl; discriminate].
Defined.

(** X15. The errors of the searches. [similaritySearchByVector] throws
    either the dimension error, on a non-empty store when the query has not
    the configured dimension, or the length error of [cosineSimilarity],
    when a resident document that passes the filter has an embedding of
    another length than the query. [similaritySearch] throws either the
    wrapped provider error or that length error; it never compares the
    provider's answer with the configured dimension. *)
Theorem search_errors query e options s err s' :
  (similaritySearchByVector e options s = (Err err, s') ->
   (err = EmbeddingDimensionMismatch (dimension s) (List.length e) /\
    size s <> 0%nat /\ Z.of_nat (List.length e) <> dimension s) \/
   (err = VectorsLengthMismatch /\
    Z.of_nat (List.length e) = dimension s /\
    exists doc emb,
      In doc (getAllDocuments s) /\ rejectedBy (filter options) doc = false /\
      embedding doc = Some emb /\ List.length emb <> List.length e)) /\
  (similaritySearch query options s = (Err err, s') ->
   size s <> 0%nat /\
   ((exists message,
       openai s (requests s) (mkRequest (embeddingModel s) query) = inl message /\
       err = EmbeddingGenerationFailed ("Failed to generate embedding: " ++ message)) \/
    (err = VectorsLengthMismatch /\
     exists queryEmbedding doc emb,
       answered s query queryEmbedding /\
       In doc (getAllDocuments s) /\ rejectedBy (filter options) doc = false /\
       embedding doc = Some emb /\
       List.length emb <> List.length queryEmbedding))).
Proof.
  split.
  - unfold similaritySearchByVector, bind, gets, ret, throw.
    destruct (Nat.eqb (size s) 0) eqn:En; [discriminate|].
    apply Nat.eqb_neq in En.
    destruct (Z.eqb (Z.of_nat (List.length e)) (dimension s)) eqn:Ed; simpl.
    + apply Z.eqb_eq in Ed.
      destruct (scanDocuments _ _ _ _ _ s) as [[rs|err0] s1] eqn:Es; [discriminate|].
      intros H. injection H as <- _.
      destruct (scanDocuments_throws _ _ _ _ _ _ _ _ Es) as (-> & Hbad).
      right. auto.
    + apply Z.eqb_neq in Ed. intros H. injection H as <- _. left. auto.
  - unfold similaritySearch, bind, gets, ret, generateEmbedding, answered.
    destruct (Nat.eqb (size s) 0) eqn:En; [discriminate|].
    apply Nat.eqb_neq in En. intros H. split; [exact En|]. revert H.
    destruct (openai s (requests s) _) as [msg|qe] eqn:Eq.
    + intros H. injection H as <- _. left. exists msg. auto.
    + match goal with
      | |- context [scanDocuments ?a ?b ?c ?d ?r ?st] =>
          destruct (scanDocuments a b c d r st) as [[rs|err0] s1] eqn:Es; [discriminate|]
      end.
      intros H. injection H as <- _.
      destruct (scanDocuments_throws _ _ _ _ _ _ _ _ Es) as (-> & doc & emb & Hbad).
      right. split; [reflexivity|]. exists qe, doc, emb. tauto.
Qed.

Lemma search_errors_witness :
  (EmbeddingDimensionMismatch 2 3
     = EmbeddingDimensionMismatch (dimension (compass (answering [1; 0]))) 3 /\
   size (compass (answering [1; 0])) <> 0%nat /\
   Z.of_nat 3 <> dimension (compass (answering [1; 0]))) \/
  (EmbeddingDimensionMismatch 2 3 = VectorsLengthMismatch /\
   Z.of_nat 3 = dimension (compass (answering [1; 0])) /\
   exists doc emb,
     In doc (getAllDocuments (compass (answering [1; 0]))) /\
     rejectedBy None doc = false /\
     embedding doc = Some emb /\ List.length emb <> 3%nat).
Proof.
  destruct (search_errors "eastwards" [1; 2; 3] defaultOptions
              (compass (answering [1; 0]))
              (EmbeddingDimensionMismatch 2 3) (compass (answering [1; 0])))
    as [Hvector _].
  apply Hvector. reflexivity.
Defined.

(** ** The range of the scores *)

Lemma sumOfSquares_nonneg v : 0 <= sumOfSquares v.
Proof.
  induction v as [|x v IH]; simpl; [lra|].
  pose proof (Rle_0_sqr x) as Hx. unfold Rsqr in Hx. lra.
Qed.

(** Cauchy and Schwarz, on lists. *)
Lemma dotProduct_squared a :
  forall b, dotProduct a b * dotProduct a b <= sumOfSquares a * sumOfSquares b.
Proof.
  induction a as [|x a IH]; intros [|y b]; simpl.
  - lra.
  - lra.
  - pose proof (sumOfSquares_nonneg a). pose proof (Rle_0_sqr x) as Hx.
    unfold Rsqr in Hx. lra.
  - specialize (IH b).
    pose proof (sumOfSquares_nonneg a) as HA.
    pose proof (sumOfSquares_nonneg b) as HB.
    set (A := sumOfSquares a) in *. set (B := sumOfSquares b) in *.
    set (D := dotProduct a b) in *.
    assert (Hmix : 2 * (x * y * D) <= x * x * B + y * y * A).
    { destruct (Req_dec_T A 0) as [HA0|HA0].
      - assert (D = 0) by nra. subst D. rewrite H, HA0.
        pose proof (Rle_0_sqr x) as Hx. unfold Rsqr in Hx. nra.
      - assert (0 < A) by lra.
        assert (0 <= A * (x * x * B + y * y * A - 2 * (x * y * D))).
        { pose proof (Rle_0_sqr (x * D - y * A)) as Hsq. unfold Rsqr in Hsq.
          pose proof (Rle_0_sqr x) as Hx. unfold Rsqr in Hx.
          assert (x * x * (D * D) <= x * x * (A * B)) by nra.
          nra. }
        nra. }
    nra.
Qed.

Lemma cosineSimilarity_range a b r :
  cosineSimilarity a b = Ok r -> -1 <= r <= 1.
Proof.
  intros H.
  destruct (Nat.eq_dec (List.length a) (List.length b)) as [Hlen|Hlen].
  2:{ rewrite cosineSimilarity_mismatch in H by assumption. discriminate. }
  rewrite cosineSimilarity_eq in H by assumption.
  destruct (Req_dec_T (magnitude a) 0) as [|Ha]; [injection H as <-; lra|].
  destruct (Req_dec_T (magnitude b) 0) as [|Hb]; [injection H as <-; lra|].
  injection H as <-.
  unfold magnitude in *.
  pose proof (sqrt_pos (sumOfSquares a)) as Hpa.
  pose proof (sqrt_pos (sumOfSquares b)) as Hpb.
  pose proof (sqrt_sqrt _ (sumOfSquares_nonneg a)) as Hsa.
  pose proof (sqrt_sqrt _ (sumOfSquares_nonneg b)) as Hsb.
  pose proof (dotProduct_squared a b) as Hcs.
  set (ma := sqrt (sumOfSquares a)) in *. set (mb := sqrt (sumOfSquares b)) in *.
  set (D := dotProduct a b) in *.
  assert (Hm : 0 < ma * mb) by (apply Rmult_lt_0_compat; lra).
  assert (Hsq : D * D <= (ma * mb) * (ma * mb)) by nra.
  assert (HD : - (ma * mb) <= D <= ma * mb) by nra.
  split.
  - apply Rmult_le_reg_r with (ma * mb); [exact Hm|].
    unfold Rdiv. rewrite Rmult_assoc, Rinv_l by lra. lra.
  - apply Rmult_le_reg_r with (ma * mb); [exact Hm|].
    unfold Rdiv. rewrite Rmult_assoc, Rinv_l by lra. lra.
Qed.

(** X16. Whenever [cosineSimilarity] returns, the value lies between -1
    and 1; so does the score of every result of either search. *)
Theorem scores_between_minus_one_and_one query e options s :
  (forall a b r, cosineSimilarity a b = Ok r -> -1 <= r <= 1) /\
  (forall rs s',
     similaritySearchByVector e options s = (Ok rs, s') ->
     Forall (fun r => -1 <= score r <= 1) rs) /\
  (forall rs s',
     similaritySearch query options s = (Ok rs, s') ->
     Forall (fun r => -1 <= score r <= 1) rs).
Proof.
  assert (Hranking : forall k t f q docs rs,
             ranking k t f q docs rs -> Forall (fun r => -1 <= score r <= 1) rs).
  { intros k t f q docs rs (candidates & -> & Hc).
    apply Forall_forall. intros r Hr.
    apply slice0_In, sort_In, Hc in Hr.
    destruct Hr as [(_ & _ & emb & _ & Hcos) _].
    eapply cosineSimilarity_range, Hcos. }
  split; [exact cosineSimilarity_range|]. split; intros rs s' H.
  - apply similaritySearchByVector_returns in H. eapply Hranking, H.
  - destruct (similaritySearch_returns _ _ _ _ _ H) as (qe & _ & Hr).
    eapply Hranking, Hr.
Qed.

Lemma scores_between_minus_one_and_one_witness :
  Forall (fun r => -1 <= score r <= 1) [mkSearchResult east 1; mkSearchResult north 0].
Proof.
  destruct (scores_between_minus_one_and_one "eastwards" [1; 0] defaultOptions
              (compass (answering [1; 0]))) as (_ & Hvector & _).
  apply (Hvector _ _ (similaritySearchByVector_compass _ defaultOptions eq_refl
                        (thresholdOf_default None None))).
Defined.

Lemma dotProduct_self v : dotProduct v v = sumOfSquares v.
Proof.
  induction v as [|x v IH]; simpl; [reflexivity|]. rewrite IH. reflexivity.
Qed.

Lemma sumOfSquares_positive v :
  Exists (fun x => x <> 0) v -> 0 < sumOfSquares v.
Proof.
  induction 1 as [x v Hx|x v _ IH]; simpl.
  - pose proof (sumOfSquares_nonneg v). assert (0 < x * x) by nra. lra.
  - pose proof (Rle_0_sqr x) as Hx. unfold Rsqr in Hx. lra.
Qed.

(** X17. The cosine similarity of a vector with itself is 1, unless every
    component of the vector is 0 (then it is 0). *)
Theorem cosineSimilarity_self v :
  (Exists (fun x => x <> 0) v -> cosineSimilarity v v = Ok 1) /\
  (Forall (fun x => x = 0) v -> cosineSimilarity v v = Ok 0).
Proof.
  rewrite cosineSimilarity_eq by reflexivity. split.
  - intros Hv. apply sumOfSquares_positive in Hv.
    pose proof (sqrt_lt_R0 _ Hv) as Hm.
    unfold magnitude.
    destruct (Req_dec_T (sqrt (sumOfSquares v)) 0) as [E|_]; [lra|].
    rewrite dotProduct_self, sqrt_sqrt by lra.
    f_equal. field. lra.
  - intros Hz. unfold magnitude. rewrite sumOfSquares_zero by assumption.
    rewrite sqrt_0. destruct (Req_dec_T 0 0); [reflexivity|congruence].
Qed.

Lemma cosineSimilarity_self_witness :
  cosineSimilarity [3; 4] [3; 4] = Ok 1 /\ cosineSimilarity [0; 0] [0; 0] = Ok 0.
Proof.
  split.
  - apply (cosineSimilarity_self [3; 4]). left. lra.
  - apply (cosineSimilarity_self [0; 0]). repeat constructor.
Defined.

(** ** The best results *)

Lemma descending_trans a b c : descending a b -> descending b c -> descending a c.
Proof. unfold descending. lra. Qed.

Lemma sort_strongly_descending l :
  StronglySorted descending (sort byScoreDescending l).
Proof.
  apply Sorted_StronglySorted; [|apply sort_descending].
  intros a b c. apply descending_trans.
Qed.

Lemma slice0_firstn {A} (l : list A) k :
  (0 <= k)%Z -> slice0 l k = firstn (Z.to_nat k) l.
Proof.
  intros Hk. unfold slice0. destruct (Z.ltb_spec k 0); [lia|].
  destruct (Z.le_gt_cases k (Z.of_nat (List.length l))).
  - rewrite Z.min_l by assumption. reflexivity.
  - rewrite Z.min_r by lia. rewrite Nat2Z.id.
    rewrite firstn_all, firstn_all2 by lia. reflexivity.
Qed.

Lemma firstn_best n :
  forall l c,
    StronglySorted descending l -> In c l ->
    In c (firstn n l) \/
    (List.length (firstn n l) = n /\
     Forall (fun r => score r >= score c) (firstn n l)).
Proof.
  induction n as [|n IH]; intros l c Hl Hc; simpl.
  - right. split; [reflexivity | constructor].
  - destruct l as [|x l]; [destruct Hc|].
    apply StronglySorted_inv in Hl. destruct Hl as [Hl Hx].
    destruct Hc as [->|Hc]; [left; left; reflexivity|].
    destruct (IH l c Hl Hc) as [Hin|[Hlen Hall]]; [left; right; exact Hin|].
    right. simpl. split; [congruence|].
    constructor; [|exact Hall].
    rewrite Forall_forall in Hx. apply (Hx c Hc).
Qed.

Lemma ranking_best k t f q docs rs :
  (0 <= k)%Z -> ranking k t f q docs rs ->
  forall doc sc,
    scored f q docs doc sc -> sc >= t ->
    In (mkSearchResult doc sc) rs \/
    (Z.of_nat (List.length rs) = k /\ Forall (fun r => score r >= sc) rs).
Proof.
  intros Hk (candidates & -> & Hc) doc sc Hscored Hsc.
  rewrite slice0_firstn by assumption.
  assert (Hin : In (mkSearchResult doc sc) (sort byScoreDescending candidates)).
  { apply sort_In, Hc. simpl. tauto. }
  destruct (firstn_best (Z.to_nat k) _ _ (sort_strongly_descending candidates) Hin)
    as [H|[Hlen Hall]]; [left; exact H|].
  right. split; [lia | exact Hall].
Qed.

(** X18. The results are the best: a resident document that passes the
    filter, has an embedding and scores at least the threshold is either
    among the results, or [topK] results were returned and each of them
    scores at least as much. *)
Theorem search_returns_the_best query e options s :
  (0 <= topKOf options)%Z ->
  (forall rs s',
     similaritySearchByVector e options s = (Ok rs, s') ->
     forall doc sc,
       scored (filter options) e (getAllDocuments s) doc sc ->
       sc >= thresholdOf options ->
       In (mkSearchResult doc sc) rs \/
       (Z.of_nat (List.length rs) = topKOf options /\
        Forall (fun r => score r >= sc) rs)) /\
  (forall rs s',
     similaritySearch query options s = (Ok rs, s') ->
     exists queryEmbedding,
       (size s <> 0%nat -> answered s query queryEmbedding) /\
       forall doc sc,
         scored (filter options) queryEmbedding (getAllDocuments s) doc sc ->
         sc >= thresholdOf options ->
         In (mkSearchResult doc sc) rs \/
         (Z.of_nat (List.length rs) = topKOf options /\
          Forall (fun r => score r >= sc) rs)).
Proof.
  intros Hk. split; intros rs s' H.
  - apply similaritySearchByVector_returns in H.
    intros doc sc. eapply ranking_best; eassumption.
  - destruct (similaritySearch_returns _ _ _ _ _ H) as (qe & Hqe & Hr).
    exists qe. split; [assumption|].
    intros doc sc. eapply ranking_best; eassumption.
Qed.

Lemma search_returns_the_best_witness :
  In (mkSearchResult north 0) [mkSearchResult east 1] \/
  (Z.of_nat (List.length [mkSearchResult east 1]) = 1%Z /\
   Forall (fun r => score r >= 0) [mkSearchResult east 1]).
Proof.
  destruct (search_returns_the_best "eastwards" [1; 0]
              (mkOptions (Some 1%Z) None None) (compass (answering [1; 0]))
              ltac:(unfold topKOf; simpl; lia)) as [Hvector _].
  apply (Hvector _ _ (similaritySearchByVector_compass _
                        (mkOptions (Some 1%Z) None None) eq_refl
                        (thresholdOf_default _ None)) north 0).
  - split; [simpl; tauto|]. split; [reflexivity|].
    exists [0; 1]. split; [reflexivity | apply cosineSimilarity_east_north].
  - unfold thresholdOf. simpl. lra.
Defined.



(** ** Asking for fewer results *)

Lemma slice0_slice0 {A} (l : list A) k k' :
  (0 <= k <= k')%Z -> slice0 (slice0 l k') k = slice0 l k.
Proof.
  intros Hk. rewrite !slice0_firstn by lia.
  rewrite firstn_firstn. f_equal. lia.
Qed.

Lemma slice0_nil {A} k : slice0 (@nil A) k = [].
Proof. apply firstn_nil. Qed.

(** Both methods, guard by guard. *)
Lemma similaritySearchByVector_unfolded e o s :
  similaritySearchByVector e o s
  = if Nat.eqb (size s) 0 then (Ok [], s)
    else if Z.eqb (Z.of_nat (List.length e)) (dimension s) then
      match scanDocuments e (thresholdOf o) (filter o) (getAllDocuments s) [] s with
      | (Ok results, s') => (Ok (slice0 (sort byScoreDescending results) (topKOf o)), s')
      | (Err err, s') => (Err err, s')
      end
    else (Err (EmbeddingDimensionMismatch (dimension s) (List.length e)), s).
Proof.
  unfold similaritySearchByVector, bind, gets, ret, throw.
  destruct (Nat.eqb (size s) 0); [reflexivity|].
  destruct (Z.eqb _ _); reflexivity.
Qed.

Lemma similaritySearch_unfolded q o s :
  similaritySearch q o s
  = if Nat.eqb (size s) 0 then (Ok [], s)
    else
      let request := mkRequest (embeddingModel s) q in
      match openai s (requests s) request with
      | inl message =>
          (Err (EmbeddingGenerationFailed ("Failed to generate embedding: " ++ message)),
           withRequest request s)
      | inr e =>
          match scanDocuments e (thresholdOf o) (filter o) (getAllDocuments s) []
                              (withRequest request s) with
          | (Ok results, s') =>
              (Ok (slice0 (sort byScoreDescending results) (topKOf o)), s')
          | (Err err, s') => (Err err, s')
          end
      end.
Proof.
  unfold similaritySearch, bind, gets, ret, generateEmbedding.
  destruct (Nat.eqb (size s) 0); [reflexivity|]. simpl.
  destruct (openai s (requests s) _); reflexivity.
Qed.

(** Both searches cut one list, which does not depend on [topK]. *)
Lemma similaritySearchByVector_unsliced e t f s :
  exists outcome : Result (list SearchResult) * MemoryVectorStore,
    forall k,
      similaritySearchByVector e (mkOptions k t f) s
      = (match fst outcome with
         | Ok sorted => Ok (slice0 sorted (topKOf (mkOptions k t f)))
         | Err err => Err err
         end, snd outcome).
Proof.
  destruct (Nat.eqb (size s) 0) eqn:En.
  { exists (Ok [], s). intros k. rewrite similaritySearchByVector_unfolded, En.
    simpl. rewrite slice0_nil. reflexivity. }
  destruct (Z.eqb (Z.of_nat (List.length e)) (dimension s)) eqn:Ed.
  2:{ eexists (Err _, s). intros k.
      rewrite similaritySearchByVector_unfolded, En, Ed. reflexivity. }
  destruct (scanDocuments e (thresholdOf (mkOptions None t f)) f (getAllDocuments s) [] s)
    as [[results|err] s1] eqn:Es.
  - exists (Ok (sort byScoreDescending results), s1). intros k.
    rewrite similaritySearchByVector_unfolded, En, Ed.
    change (thresholdOf (mkOptions k t f)) with (thresholdOf (mkOptions None t f)).
    change (filter (mkOptions k t f)) with f.
    rewrite Es. reflexivity.
  - exists (Err err, s1). intros k.
    rewrite similaritySearchByVector_unfolded, En, Ed.
    change (thresholdOf (mkOptions k t f)) with (thresholdOf (mkOptions None t f)).
    change (filter (mkOptions k t f)) with f.
    rewrite Es. reflexivity.
Qed.

Lemma similaritySearch_unsliced q t f s :
  exists outcome : Result (list SearchResult) * MemoryVectorStore,
    forall k,
      similaritySearch q (mkOptions k t f) s
      = (match fst outcome with
         | Ok sorted => Ok (slice0 sorted (topKOf (mkOptions k t f)))
         | Err err => Err err
         end, snd outcome).
Proof.
  destruct (Nat.eqb (size s) 0) eqn:En.
  { exists (Ok [], s). intros k. rewrite similaritySearch_unfolded, En.
    simpl. rewrite slice0_nil. reflexivity. }
  destruct (openai s (requests s) (mkRequest (embeddingModel s) q)) as [msg|qe] eqn:Eq.
  { eexists (Err _, _). intros k.
    rewrite similaritySearch_unfolded, En. simpl. rewrite Eq. reflexivity. }
  destruct (scanDocuments qe (thresholdOf (mkOptions None t f)) f (getAllDocuments s) []
              (withRequest (mkRequest (embeddingModel s) q) s))
    as [[results|err] s1] eqn:Es.
  - exists (Ok (sort byScoreDescending results), s1). intros k.
    rewrite similaritySearch_unfolded, En. simpl. rewrite Eq.
    change (thresholdOf (mkOptions k t f)) with (thresholdOf (mkOptions None t f)).
    rewrite Es. reflexivity.
  - exists (Err err, s1). intros k.
    rewrite similaritySearch_unfolded, En. simpl. rewrite Eq.
    change (thresholdOf (mkOptions k t f)) with (thresholdOf (mkOptions None t f)).
    rewrite Es. reflexivity.
Qed.

(** X20. A smaller [topK] returns a prefix: when a search with [topK = k']
    returns [rs'], the same search with [0 <= k <= k'] returns the first
    [k] elements of [rs'], and leaves the same store. *)
Theorem smaller_topK_returns_prefix query e k k' t f s :
  (0 <= k <= k')%Z ->
  (forall rs' s',
     similaritySearchByVector e (mkOptions (Some k') t f) s = (Ok rs', s') ->
     similaritySearchByVector e (mkOptions (Some k) t f) s
     = (Ok (firstn (Z.to_nat k) rs'), s')) /\
  (forall rs' s',
     similaritySearch query (mkOptions (Some k') t f) s = (Ok rs', s') ->
     similaritySearch query (mkOptions (Some k) t f) s
     = (Ok (firstn (Z.to_nat k) rs'), s')).
Proof.
  intros Hk. split; intros rs' s' H.
  - destruct (similaritySearchByVector_unsliced e t f s) as ([outcome s1] & Hall).
    rewrite (Hall (Some k')) in H. rewrite (Hall (Some k)). simpl in *.
    destruct outcome as [sorted|err]; [|discriminate].
    injection H as <- <-. unfold topKOf. simpl.
    rewrite <- (slice0_firstn _ k) by lia. rewrite slice0_slice0 by lia. reflexivity.
  - destruct (similaritySearch_unsliced query t f s) as ([outcome s1] & Hall).
    rewrite (Hall (Some k')) in H. rewrite (Hall (Some k)). simpl in *.
    destruct outcome as [sorted|err]; [|discriminate].
    injection H as <- <-. unfold topKOf. simpl.
    rewrite <- (slice0_firstn _ k) by lia. rewrite slice0_slice0 by lia. reflexivity.
Qed.

Lemma smaller_topK_returns_prefix_witness :
  similaritySearchByVector [1; 0] (mkOptions (Some 1%Z) None None)
                           (compass (answering [1; 0]))
  = (Ok [mkSearchResult east 1], compass (answering [1; 0])).
Proof.
  destruct (smaller_topK_returns_prefix "eastwards" [1; 0] 1 2 None None
              (compass (answering [1; 0])) ltac:(lia)) as [Hvector _].
  apply (Hvector [mkSearchResult east 1; mkSearchResult north 0]).
  apply (similaritySearchByVector_compass _ (mkOptions (Some 2%Z) None None) eq_refl
           (thresholdOf_default _ None)).
Defined.

(** * The command line *)


(** X22. [main] looks at its first two arguments only: further arguments
    change neither what it writes nor how it ends. *)
Theorem main_reads_two_arguments args :
  Cli.main args = Cli.main (firstn 2 args).
Proof.
  destruct args as [|command [|filePath rest]]; reflexivity.
Qed.

(** * The agent's options *)

Lemma includes_In xs x : GangstaAgent.includes xs x = true <-> In x xs.
Proof.
  unfold GangstaAgent.includes. rewrite existsb_exists. split.
  - intros (y & Hy & E). apply String.eqb_eq in E. subst. assumption.
  - intros H. exists x. split; [assumption | apply String.eqb_refl].
Qed.

Lemma validateModel_cases model :
  match model with
  | None | Some "" =>
      GangstaAgent.validateModel model
      = GangstaAgent.mkValidation false (Some "model is required and must be a string")
  | Some m =>
      if GangstaAgent.includes GangstaAgent.GangstaAgentSupportedModels m
      then GangstaAgent.validateModel model = GangstaAgent.mkValidation true None
      else GangstaAgent.validateModel model
           = GangstaAgent.mkValidation false
               (Some "Invalid model. Supported models: gpt-4.1, gpt-4.1-nano, gpt-4.1-mini, gpt-5-nano, gpt-5-mini, gpt-5")
  end.
Proof.
  destruct model as [[|c m]|]; try reflexivity.
  unfold GangstaAgent.validateModel.
  destruct (GangstaAgent.includes GangstaAgent.GangstaAgentSupportedModels (String c m));
    reflexivity.
Qed.

Lemma validateModel_status_iff model :
  GangstaAgent.status (GangstaAgent.validateModel model) = true <->
  exists m, model = Some m /\ In m GangstaAgent.GangstaAgentSupportedModels.
Proof.
  pose proof (validateModel_cases model) as Hc.
  destruct model as [[|c m]|].
  - rewrite Hc. split; [discriminate|]. intros (m & H & Hin). injection H as <-.
    simpl in Hin. intuition discriminate.
  - destruct (GangstaAgent.includes _ (String c m)) eqn:E; rewrite Hc.
    + split; [|reflexivity]. intros _. exists (String c m).
      split; [reflexivity | apply includes_In, E].
    + split; [discriminate|]. intros (m' & H & Hin). injection H as <-.
      apply includes_In in Hin. congruence.
  - rewrite Hc. split; [discriminate|]. intros (m & H & _). discriminate.
Qed.

(** X23. [validateModel] accepts exactly the six supported model names. A
    missing or empty model is reported as required; any other name is
    reported as invalid, with the six names listed. *)
Theorem validateModel_accepts_supported model :
  (GangstaAgent.status (GangstaAgent.validateModel model) = true <->
   exists m, model = Some m /\ In m GangstaAgent.GangstaAgentSupportedModels) /\
  (model = None \/ model = Some "" ->
   GangstaAgent.validateModel model
   = GangstaAgent.mkValidation false (Some "model is required and must be a string")) /\
  (forall m,
     model = Some m -> m <> "" ->
     ~ In m GangstaAgent.GangstaAgentSupportedModels ->
     GangstaAgent.validateModel model
     = GangstaAgent.mkValidation false
         (Some "Invalid model. Supported models: gpt-4.1, gpt-4.1-nano, gpt-4.1-mini, gpt-5-nano, gpt-5-mini, gpt-5")).
Proof.
  split; [apply validateModel_status_iff|]. split.
  - intros [->| ->]; reflexivity.
  - intros m -> Hm Hin. pose proof (validateModel_cases (Some m)) as Hc.
    destruct m as [|c m]; [congruence|].
    destruct (GangstaAgent.includes _ (String c m)) eqn:E; [|exact Hc].
    apply includes_In in E. contradiction.
Qed.

Lemma validateModel_accepts_supported_witness :
  GangstaAgent.validateModel (Some "gpt-4.1-micro")
  = GangstaAgent.mkValidation false
      (Some "Invalid model. Supported models: gpt-4.1, gpt-4.1-nano, gpt-4.1-mini, gpt-5-nano, gpt-5-mini, gpt-5").
Proof.
  destruct (validateModel_accepts_supported (Some "gpt-4.1-micro")) as (_ & _ & H).
  apply (H "gpt-4.1-micro").
  - reflexivity.
  - discriminate.
  - simpl. intuition discriminate.
Defined.

Lemma validateModel_rejects model :
  GangstaAgent.status (GangstaAgent.validateModel model) = false ->
  exists c e,
    GangstaAgent.validateModel model = GangstaAgent.mkValidation false (Some (String c e)).
Proof.
  pose proof (validateModel_cases model) as Hc.
  destruct model as [[|c m]|]; try (rewrite Hc; intros _; eexists _, _; reflexivity).
  destruct (GangstaAgent.includes _ (String c m)); rewrite Hc;
    [discriminate | intros _; eexists _, _; reflexivity].
Qed.

(** X24. The constructor returns exactly when the model is one of the six
    supported names and the schema accepts the options. The model is
    looked at first: with a missing or unsupported model the constructor
    throws the model's message, whatever the schema says about the other
    fields. *)
Theorem constructor_accepts model parsed :
  (GangstaAgent.constructor model parsed = None <->
   (exists m, model = Some m /\ In m GangstaAgent.GangstaAgentSupportedModels) /\
   parsed = None) /\
  (GangstaAgent.status (GangstaAgent.validateModel model) = false ->
   GangstaAgent.constructor model parsed
   = GangstaAgent.error (GangstaAgent.validateModel model) /\
   GangstaAgent.constructor model parsed <> None).
Proof.
  unfold GangstaAgent.constructor, GangstaAgent.validateOptions.
  destruct (GangstaAgent.status (GangstaAgent.validateModel model)) eqn:Es.
  - pose proof (proj1 (validateModel_status_iff model) Es) as Hm.
    split; [|discriminate].
    destruct parsed as [errors|]; simpl.
    + destruct (GangstaAgent.firstFieldError errors); simpl;
        (split; [discriminate | intros [_ H]; discriminate]).
    + split; [auto | reflexivity].
  - destruct (validateModel_rejects model Es) as (c & e & Hv).
    split.
    + simpl. split; [discriminate|]. intros [Hm _].
      apply validateModel_status_iff in Hm. congruence.
    + intros _. rewrite Hv. simpl. split; [reflexivity | discriminate].
Qed.

Lemma constructor_accepts_witness :
  GangstaAgent.constructor None
    (Some [GangstaAgent.mkIssue [inl GangstaAgent.name] "Required"])
  = Some "model is required and must be a string".
Proof.
  destruct (constructor_accepts None
              (Some [GangstaAgent.mkIssue [inl GangstaAgent.name] "Required"]))
    as (_ & H).
  apply H. reflexivity.
Defined.

Lemma fieldErrors_not_empty f : exists c e, GangstaAgent.fieldErrors f = String c e.
Proof. destruct f; eexists _, _; reflexivity. Qed.

Lemma firstFieldError_skips before :
  forall rest,
    Forall (fun e => match GangstaAgent.path e with
                     | inl _ :: _ => False
                     | _ => True
                     end) before ->
    GangstaAgent.firstFieldError (before ++ rest)%list = GangstaAgent.firstFieldError rest.
Proof.
  induction before as [|e before IH]; intros rest Hall; simpl; [reflexivity|].
  inversion_clear Hall as [|? ? He Hbefore].
  destruct (GangstaAgent.path e) as [|[f|n] p]; [|destruct He|]; apply IH, Hbefore.
Qed.

(** X25. With a supported model and a schema that rejects the options, the
    first issue whose path starts with a field of the schema decides the
    message: it is that field's fixed message, followed by the issue's own
    message in parentheses unless the fixed message already contains it.
    Issues before it without such a path and all issues after it are
    ignored. *)
Theorem first_field_issue_decides model before issue f p after :
  GangstaAgent.status (GangstaAgent.validateModel model) = true ->
  Forall (fun e => match GangstaAgent.path e with
                   | inl _ :: _ => False
                   | _ => True
                   end) before ->
  GangstaAgent.path issue = inl f :: p ->
  GangstaAgent.constructor model (Some (before ++ issue :: after)%list)
  = Some (if GangstaAgent.stringIncludes (GangstaAgent.fieldErrors f)
                                         (GangstaAgent.message issue)
          then GangstaAgent.fieldErrors f
          else GangstaAgent.fieldErrors f ++ " ("
                 ++ GangstaAgent.message issue ++ ")").
Proof.
  intros Hm Hbefore Hpath.
  unfold GangstaAgent.constructor, GangstaAgent.validateOptions.
  rewrite Hm. simpl negb. cbv iota.
  rewrite firstFieldError_skips by assumption.
  simpl GangstaAgent.firstFieldError. rewrite Hpath. simpl.
  destruct (fieldErrors_not_empty f) as (c & e & Hf). rewrite Hf.
  destruct (GangstaAgent.stringIncludes _ _); reflexivity.
Qed.

Lemma first_field_issue_decides_witness :
  GangstaAgent.constructor (Some "gpt-4.1")
    (Some [GangstaAgent.mkIssue [] "Unrecognized";
           GangstaAgent.mkIssue [inl GangstaAgent.name] "Required";
           GangstaAgent.mkIssue [inl GangstaAgent.principles; inr 0%nat]
                                "Expected string, received number"])
  = Some "name is required and must be a string (Required)".
Proof.
  apply (first_field_issue_decides (Some "gpt-4.1")
           [GangstaAgent.mkIssue [] "Unrecognized"]
           (GangstaAgent.mkIssue [inl GangstaAgent.name] "Required")
           GangstaAgent.name []
           [GangstaAgent.mkIssue [inl GangstaAgent.principles; inr 0%nat]
                                 "Expected string, received number"]).
  - reflexivity.
  - repeat constructor.
  - reflexivity.
Defined.

(** ** Loading a file *)

Lemma substring_all s : String.substring 0 (String.length s) s = s.
Proof. induction s as [|c s IH]; simpl; [reflexivity|]. rewrite IH. reflexivity. Qed.

Lemma substring_split s :
  forall k, (k <= String.length s)%nat ->
    s = String.substring 0 k s ++ String.substring k (String.length s - k) s.
Proof.
  induction s as [|c s IH]; intros [|k] Hk; simpl in *; try reflexivity; try lia.
  - rewrite substring_all. reflexivity.
  - rewrite <- IH by lia. reflexivity.
Qed.

Lemma endsWith_suffix s suffix :
  GangstaAgent.endsWith s suffix = true -> exists stem, s = stem ++ suffix.
Proof.
  unfold GangstaAgent.endsWith.
  destruct (Nat.leb_spec (String.length suffix) (String.length s)) as [Hle|];
    [|discriminate].
  intros H. apply String.eqb_eq in H.
  exists (String.substring 0 (String.length s - String.length suffix) s).
  assert (Hk : (String.length s - String.length suffix <= String.length s)%nat) by lia.
  pose proof (substring_split s _ Hk) as Hs.
  replace (String.length s - (String.length s - String.length suffix))%nat
    with (String.length suffix) in Hs by lia.
  rewrite H in Hs. exact Hs.
Qed.

(** X26. [loadFile] returns text only for a path that ends in [.pdf], and
    then the text is what the parser gives for the bytes read. The file is
    read before the path is looked at: when the read is rejected, that
    rejection is what [loadFile] throws, for any path. *)
Theorem loadFile_returns_pdf_text {Buffer : Type}
    (readFile : string -> string + Buffer) (getText : Buffer -> string + string)
    (filePath : string) :
  (forall text,
     GangstaAgent.loadFile readFile getText filePath = inr text ->
     (exists stem, filePath = stem ++ ".pdf") /\
     exists file, readFile filePath = inr file /\ getText file = inr text) /\
  (forall rejected,
     readFile filePath = inl rejected ->
     GangstaAgent.loadFile readFile getText filePath = inl rejected).
Proof.
  unfold GangstaAgent.loadFile. split.
  - intros text. destruct (readFile filePath) as [r|file]; [discriminate|].
    destruct (GangstaAgent.endsWith filePath ".pdf") eqn:E; [|discriminate].
    intros H. split; [apply endsWith_suffix, E|]. exists file. auto.
  - intros rejected ->. reflexivity.
Qed.

Lemma loadFile_returns_pdf_text_witness :
  (exists stem, "paper.pdf" = stem ++ ".pdf") /\
  GangstaAgent.loadFile (fun _ : string => inl "ENOENT" : string + string)
                        (fun bytes => inr bytes) "notes.txt" = inl "ENOENT".
Proof.
  split.
  - destruct (loadFile_returns_pdf_text
                (fun _ : string => inr "%PDF" : string + string)
                (fun bytes => inr bytes) "paper.pdf") as [H _].
    apply (H "%PDF" eq_refl).
  - destruct (loadFile_returns_pdf_text
                (fun _ : string => inl "ENOENT" : string + string)
                (fun bytes => inr bytes) "notes.txt") as [_ H].
    apply (H "ENOENT" eq_refl).
Defined.

(** * Two more compositions on the store *)



(** ** Documents without an embedding *)

Lemma scanDocuments_warns q t f docs :
  forall results s rs s',
    scanDocuments q t f docs results s = (Ok rs, s') ->
    documents s' = documents s /\ requests s' = requests s /\
    warnings s'
    = (warnings s
       ++ map (fun doc => ("Document " ++ id doc ++ " has no embedding, skipping")%string)
              (List.filter (fun doc => negb (rejectedBy f doc)
                                       && match embedding doc with
                                          | None => true
                                          | Some _ => false
                                          end)%bool
                           docs))%list.
Proof.
  induction docs as [|doc rest IH]; intros results s rs s'; simpl.
  - intros H. injection H as _ <-. rewrite app_nil_r. auto.
  - destruct (rejectedBy f doc); simpl; [apply IH|].
    destruct (embedding doc) as [emb|]; simpl.
    + destruct (cosineSimilarity q emb) as [sc|err]; [|discriminate].
      destruct (Rge_dec sc t); apply IH.
    + unfold bind, modify. intros H.
      destruct (IH _ _ _ _ H) as (Hd & Hr & Hw).
      rewrite Hd, Hr, Hw. simpl. rewrite <- app_assoc. auto.
Qed.

(** X28. A resident document without an embedding does not make a search
    fail: a returning [similaritySearchByVector] has written one warning,
    naming the document, for each resident document that passes the filter
    and has no embedding, in the order of the store, and has changed
    nothing else; none of these documents is among the results. *)
Theorem search_skips_documents_without_embedding e options s rs s' :
  similaritySearchByVector e options s = (Ok rs, s') ->
  documents s' = documents s /\ requests s' = requests s /\
  warnings s'
  = (warnings s
     ++ map (fun doc => ("Document " ++ id doc ++ " has no embedding, skipping")%string)
            (List.filter (fun doc => negb (rejectedBy (filter options) doc)
                                     && match embedding doc with
                                        | None => true
                                        | Some _ => false
                                        end)%bool
                         (getAllDocuments s)))%list /\
  Forall (fun r => embedding (document r) <> None) rs.
Proof.
  intros H. split; [|split; [|split]].
  4:{ apply similaritySearchByVector_returns in H.
      destruct H as (candidates & -> & Hc). apply Forall_forall. intros r Hr.
      apply slice0_In, sort_In, Hc in Hr.
      destruct Hr as [(_ & _ & emb & -> & _) _]. discriminate. }
  all: rewrite similaritySearchByVector_unfolded in H;
    destruct (Nat.eqb (size s) 0) eqn:En;
    [ injection H as _ <-; apply Nat.eqb_eq in En;
      unfold size, JsMap.size in En; unfold getAllDocuments;
      destruct (documents s); [simpl; rewrite ?app_nil_r; reflexivity | discriminate]
    | destruct (Z.eqb _ _); [|discriminate];
      destruct (scanDocuments _ _ _ _ _ s) as [[results|err] s1] eqn:Es; [|discriminate];
      injection H as _ <-;
      destruct (scanDocuments_warns _ _ _ _ _ _ _ _ Es) as (Hd & Hr & Hw);
      assumption ].
Qed.

Lemma search_skips_documents_without_embedding_witness :
  warnings (snd (similaritySearchByVector [1; 0] defaultOptions
                   (mkStore (answering [1; 0])
                            [("east", east); ("draft", mkDocument "draft" "c" None None)]
                            "text-embedding-3-small" 2%Z [] [])))
  = ["Document draft has no embedding, skipping"].
Proof.
  assert (Hcos : cosineSimilarity [1; 0] [1; 0] = Ok 1)
    by apply cosineSimilarity_east_east.
  assert (Hsearch :
    similaritySearchByVector [1; 0] defaultOptions
      (mkStore (answering [1; 0])
               [("east", east); ("draft", mkDocument "draft" "c" None None)]
               "text-embedding-3-small" 2%Z [] [])
    = (Ok [mkSearchResult east 1],
       mkStore (answering [1; 0])
               [("east", east); ("draft", mkDocument "draft" "c" None None)]
               "text-embedding-3-small" 2%Z []
               ["Document draft has no embedding, skipping"])).
  { rewrite similaritySearchByVector_unfolded.
    change (Nat.eqb (size _) 0) with false. cbv iota.
    change (Z.eqb (Z.of_nat (List.length ([1; 0] : Vector))) _) with true. cbv iota.
    unfold getAllDocuments, JsMap.values, documents, map, snd.
    unfold scanDocuments, rejectedBy, defaultOptions, filter, east, embedding.
    rewrite Hcos. unfold thresholdOf, threshold.
    destruct (Rge_dec 1 0) as [_|Hn]; [|lra].
    unfold bind, modify, withWarning. simpl.
    unfold byScoreDescending. reflexivity. }
  destruct (search_skips_documents_without_embedding _ _ _ _ _ Hsearch)
    as (_ & _ & Hw & _).
  rewrite Hsearch. reflexivity.
Defined.
